(** * Netflix dashboard: the filtering and aggregation pipeline

    A shallow embedding of [netflix_streamlit.py].  A pandas DataFrame is a
    list of rows in index order, a missing cell (NaN / NaT) is [None], a
    Series of counts is an association list whose order is the order pandas
    reports.  Python exceptions are the [Raise] branch of [result]. *)

From Stdlib Require Import String Ascii DecimalString ZArith Bool Lia.
From Stdlib Require Import List Permutation Sorted.
Import ListNotations.
Local Open Scope string_scope.
Local Open Scope list_scope.

Set Implicit Arguments.

(** ** Exceptions *)

Inductive exn : Type :=
| ValueError
| KeyError.

Inductive result (A : Type) : Type :=
| Ok (a : A)
| Raise (e : exn).

Arguments Ok {A} a.
Arguments Raise {A} e.

Definition bind {A B : Type} (m : result A) (k : A -> result B) : result B :=
  match m with
  | Ok a => k a
  | Raise e => Raise e
  end.

Notation "x <- m ;; k" := (bind m (fun x => k))
  (at level 61, m at next level, right associativity).

(** ** Data model *)

(** A datetime64 value; the dashboard only reads its year. *)
Record Timestamp : Type := mkTimestamp {
  ts_year : Z;
  ts_month : Z;
  ts_day : Z
}.

(** One row of the frame.  [D] is the type held by the [date_added] column:
    [string] as [pd.read_csv] delivers it, [Timestamp] after
    [pd.to_datetime]. *)
Record Row (D : Type) : Type := mkRow {
  show_id : option string;
  type : option string;
  country : option string;
  release_year : option Z;
  date_added : option D
}.

Definition RawFrame : Type := list (Row string).
Definition DataFrame : Type := list (Row Timestamp).

(** A Series of counts: (index label, count), in reporting order. *)
Definition Series (K : Type) : Type := list (K * nat).

(** What the three sidebar widgets return on one run of the script. *)
Record Selection : Type := mkSelection {
  selected_type : string;
  selected_country : string;
  selected_year : Z * Z
}.

(** ** Element-wise comparisons of a column with a scalar *)

(** [series == value]: a missing cell compares unequal. *)
Definition eq_mask (cell : option string) (value : string) : bool :=
  match cell with
  | Some s => String.eqb s value
  | None => false
  end.

(** [series >= value]: a missing cell compares false. *)
Definition ge_mask (cell : option Z) (value : Z) : bool :=
  match cell with
  | Some y => (value <=? y)%Z
  | None => false
  end.

(** [series <= value]: a missing cell compares false. *)
Definition le_mask (cell : option Z) (value : Z) : bool :=
  match cell with
  | Some y => (y <=? value)%Z
  | None => false
  end.

(** [frame[mask]]: boolean indexing keeps the rows whose mask is true, in
    index order, as a new frame. *)
Definition boolean_index (mask : Row Timestamp -> bool) (frame : DataFrame)
  : DataFrame :=
  filter mask frame.

(** ** The filter block (lines 25-30) *)

Definition apply_filters (sel : Selection) (df : DataFrame) : DataFrame :=
  let filtered_df := df in
  let filtered_df :=
    if negb (String.eqb (selected_type sel) "All")
    then boolean_index (fun r => eq_mask (type r) (selected_type sel)) filtered_df
    else filtered_df in
  let filtered_df :=
    if negb (String.eqb (selected_country sel) "All")
    then boolean_index (fun r => eq_mask (country r) (selected_country sel)) filtered_df
    else filtered_df in
  boolean_index
    (fun r => ge_mask (release_year r) (fst (selected_year sel))
              && le_mask (release_year r) (snd (selected_year sel)))
    filtered_df.

(** ** The filter block over an object store

    Frames are objects; a variable holds a reference.  [df.copy()] and
    boolean indexing both allocate a new frame, and an assignment rebinds
    the variable. *)

Definition ref : Type := nat.

Record Env : Type := mkEnv {
  heap : list DataFrame;
  var_df : ref;
  var_filtered_df : ref
}.

Definition deref (h : list DataFrame) (r : ref) : option DataFrame :=
  nth_error h r.

Definition alloc (h : list DataFrame) (d : DataFrame) : list DataFrame * ref :=
  (h ++ [d], length h).

(** [filtered_df = df.copy()] *)
Definition stmt_copy (e : Env) : option Env :=
  match deref (heap e) (var_df e) with
  | Some d =>
      let (h, r) := alloc (heap e) d in
      Some {| heap := h; var_df := var_df e; var_filtered_df := r |}
  | None => None
  end.

(** [filtered_df = filtered_df[mask]] *)
Definition stmt_index (mask : Row Timestamp -> bool) (e : Env) : option Env :=
  match deref (heap e) (var_filtered_df e) with
  | Some d =>
      let (h, r) := alloc (heap e) (boolean_index mask d) in
      Some {| heap := h; var_df := var_df e; var_filtered_df := r |}
  | None => None
  end.

Definition obind {A B : Type} (m : option A) (k : A -> option B) : option B :=
  match m with
  | Some a => k a
  | None => None
  end.

Definition filter_block (sel : Selection) (e : Env) : option Env :=
  obind (stmt_copy e) (fun e1 =>
  obind (if negb (String.eqb (selected_type sel) "All")
         then stmt_index (fun r => eq_mask (type r) (selected_type sel)) e1
         else Some e1) (fun e2 =>
  obind (if negb (String.eqb (selected_country sel) "All")
         then stmt_index (fun r => eq_mask (country r) (selected_country sel)) e2
         else Some e2) (fun e3 =>
  stmt_index
    (fun r => ge_mask (release_year r) (fst (selected_year sel))
              && le_mask (release_year r) (snd (selected_year sel)))
    e3))).

(** The script is re-run once per widget interaction: one filter block per
    selection, each starting from the environment the previous one left. *)
Fixpoint rerun (sels : list Selection) (e : Env) : option Env :=
  match sels with
  | [] => Some e
  | sel :: rest => obind (filter_block sel e) (rerun rest)
  end.

(** ** Loading (lines 7-11)

    [pd.read_csv] is taken as given: it delivers the frame with
    [date_added] still text and an empty cell as a missing value.
    [pd.to_datetime] is called with its default [errors='raise']: a missing
    cell becomes NaT, a text it cannot parse raises. *)

Section Loading.

(** The date parser of pandas, as a parameter. *)
Variable parse_datetime : string -> option Timestamp.

Fixpoint to_datetime (col : list (option string))
  : result (list (option Timestamp)) :=
  match col with
  | [] => Ok []
  | None :: rest =>
      parsed <- to_datetime rest ;;
      Ok (None :: parsed)
  | Some text :: rest =>
      match parse_datetime text with
      | Some t =>
          parsed <- to_datetime rest ;;
          Ok (Some t :: parsed)
      | None => Raise ValueError
      end
  end.

(** [df['date_added'] = col]: the column is replaced cell by cell. *)
Fixpoint assign_date_added (df : RawFrame) (col : list (option Timestamp))
  : DataFrame :=
  match df, col with
  | r :: df', c :: col' =>
      {| show_id := show_id r; type := type r; country := country r;
         release_year := release_year r; date_added := c |}
      :: assign_date_added df' col'
  | _, _ => []
  end.

Definition load_data (csv : RawFrame) : result DataFrame :=
  col <- to_datetime (map (@date_added string) csv) ;;
  Ok (assign_date_added csv col).

End Loading.

(** A parser for the ISO form [YYYY-MM-DD], to run [load_data] on examples
    (pandas accepts this form among others). *)
Definition digit (c : ascii) : option Z :=
  let n := (Z.of_nat (nat_of_ascii c) - 48)%Z in
  if (0 <=? n)%Z && (n <=? 9)%Z then Some n else None.

Fixpoint number (cs : list ascii) (acc : Z) : option Z :=
  match cs with
  | [] => Some acc
  | c :: rest =>
      match digit c with
      | Some d => number rest (10 * acc + d)%Z
      | None => None
      end
  end.

Definition parse_iso_date (text : string) : option Timestamp :=
  match list_ascii_of_string text with
  | [y1; y2; y3; y4; s1; m1; m2; s2; d1; d2] =>
      if Ascii.eqb s1 "-" && Ascii.eqb s2 "-" then
        match number [y1; y2; y3; y4] 0, number [m1; m2] 0, number [d1; d2] 0 with
        | Some y, Some m, Some d =>
            if (1 <=? m)%Z && (m <=? 12)%Z && (1 <=? d)%Z && (d <=? 31)%Z
            then Some (mkTimestamp y m d)
            else None
        | _, _, _ => None
        end
      else None
  | _ => None
  end.

(** ** The select boxes (lines 20-21) *)

(** [series.unique()]: the distinct values, in order of first appearance. *)
Definition unique (l : list string) : list string :=
  fold_left (fun seen x => if existsb (String.eqb x) seen
                           then seen
                           else seen ++ [x]) l [].

(** ** The slider bounds (line 22) *)

(** [series.dropna()] *)
Fixpoint dropna (A : Type) (col : list (option A)) : list A :=
  match col with
  | [] => []
  | Some a :: rest => a :: dropna rest
  | None :: rest => dropna rest
  end.

(** [series.min()] and [series.max()] skip missing cells and are NaN when
    nothing is left. *)
Definition series_min (col : list (option Z)) : option Z :=
  match dropna col with
  | [] => None
  | y :: ys => Some (fold_left Z.min ys y)
  end.

Definition series_max (col : list (option Z)) : option Z :=
  match dropna col with
  | [] => None
  | y :: ys => Some (fold_left Z.max ys y)
  end.

(** [int(x)]: NaN has no integer value. *)
Definition py_int (x : option Z) : result Z :=
  match x with
  | Some y => Ok y
  | None => Raise ValueError
  end.

Definition slider_bounds (df : DataFrame) : result (Z * Z) :=
  lo <- py_int (series_min (map (@release_year Timestamp) df)) ;;
  hi <- py_int (series_max (map (@release_year Timestamp) df)) ;;
  Ok (lo, hi).

(** The options offered by the two select boxes. *)
Definition type_options (df : DataFrame) : list string :=
  "All" :: unique (dropna (map (@type Timestamp) df)).

Definition country_options (df : DataFrame) : list string :=
  "All" :: unique (dropna (map (@country Timestamp) df)).

(** ** Value counts and top-N (lines 38, 43, 121) *)

(** One more occurrence of [k]; a new label goes to the end, so labels stay
    in order of first appearance. *)
Fixpoint bump (k : string) (s : Series string) : Series string :=
  match s with
  | [] => [(k, 1)]
  | (k', c) :: s' =>
      if String.eqb k k' then (k', S c) :: s' else (k', c) :: bump k s'
  end.

Definition tally (col : list (option string)) : Series string :=
  fold_left (fun acc cell => match cell with
                             | Some k => bump k acc
                             | None => acc
                             end) col [].

(** [series.sort_values(ascending=False)], as a stable sort: an entry moves
    ahead only of entries with a strictly smaller count, so equal counts
    keep the order they had. *)
Fixpoint insert_desc (K : Type) (x : K * nat) (s : Series K) : Series K :=
  match s with
  | [] => [x]
  | y :: s' =>
      if (snd x <? snd y)%nat then y :: insert_desc x s' else x :: y :: s'
  end.

Fixpoint sort_values_desc (K : Type) (s : Series K) : Series K :=
  match s with
  | [] => []
  | x :: s' => insert_desc x (sort_values_desc s')
  end.

(** [series.value_counts()]: missing cells dropped, most frequent first. *)
Definition value_counts (col : list (option string)) : Series string :=
  sort_values_desc (tally col).

(** [series.nlargest(n)] with the default [keep='first']. *)
Definition nlargest (K : Type) (n : Z) (s : Series K) : Series K :=
  if (n <=? 0)%Z then [] else firstn (Z.to_nat n) (sort_values_desc s).

Definition type_counts (df : DataFrame) : Series string :=
  value_counts (map (@type Timestamp) df).

Definition country_counts (df : DataFrame) : Series string :=
  nlargest 10 (value_counts (map (@country Timestamp) df)).

Definition top_countries_df (df : DataFrame) : Series string :=
  value_counts (map (@country Timestamp) df).

(** ** Grouping (lines 48, 115) *)

Section GroupBy.

Variable K : Type.
Variable cmp : K -> K -> comparison.

(** The groups of a [groupby]: one entry per key, keys ascending
    ([sort=True]), each with its rows in frame order. *)
Definition Groups : Type := list (K * DataFrame).

Fixpoint add_to_group (k : K) (r : Row Timestamp) (g : Groups) : Groups :=
  match g with
  | [] => [(k, [r])]
  | (k', rows) :: g' =>
      match cmp k k' with
      | Eq => (k', rows ++ [r]) :: g'
      | Lt => (k, [r]) :: (k', rows) :: g'
      | Gt => (k', rows) :: add_to_group k r g'
      end
  end.

(** Rows whose key is missing belong to no group ([dropna=True]). *)
Definition groupby (key : Row Timestamp -> option K) (df : DataFrame)
  : Groups :=
  fold_left (fun g r => match key r with
                        | Some k => add_to_group k r g
                        | None => g
                        end) df [].

(** [.count()[column]]: per group, the rows whose [column] is present. *)
Definition count_column (A : Type) (column : Row Timestamp -> option A)
    (g : Groups) : Series K :=
  map (fun '(k, rows) => (k, List.length (dropna (map column rows)))) g.

(** [.size()]: per group, the number of rows. *)
Definition size (g : Groups) : Series K :=
  map (fun '(k, rows) => (k, List.length rows)) g.

End GroupBy.

(** [df['date_added'].dt.year] *)
Definition dt_year (r : Row Timestamp) : option Z :=
  option_map ts_year (date_added r).

(** A Series of counts has no missing value to drop. *)
Definition dropna_counts (K : Type) (s : Series K) : Series K := s.

Definition time_data (df : DataFrame) : Series Z :=
  dropna_counts (count_column (@show_id Timestamp) (groupby Z.compare dt_year df)).

(** Keys of a two-column [groupby] are compared column by column. *)
Definition cmp_year_country (a b : Z * string) : comparison :=
  match Z.compare (fst a) (fst b) with
  | Eq => String.compare (snd a) (snd b)
  | c => c
  end.

Definition year_country (r : Row Timestamp) : option (Z * string) :=
  match release_year r, country r with
  | Some y, Some c => Some (y, c)
  | _, _ => None
  end.

(** [.reset_index(name='title_count')]: one row per group. *)
Definition heatmap_data (df : DataFrame) : list (Z * string * nat) :=
  map (fun '((y, c), n) => (y, c, n))
      (size (groupby cmp_year_country year_country df)).

(** ** The choropleth's colour range (line 55) *)

Definition string_max (a b : string) : string :=
  if String.ltb a b then b else a.

(** [max(iterable)]: an empty iterable raises. *)
Definition py_max (l : list string) : result string :=
  match l with
  | [] => Raise ValueError
  | x :: rest => Ok (fold_left string_max rest x)
  end.

Definition choropleth_range_max (df : DataFrame) : result string :=
  py_max (dropna (map (@show_id Timestamp) df)).

(** ** The donut chart (lines 79-108) *)

Definition chart_colors : list (string * list string) :=
  [ ("blue", ["#29b5e8"; "#155F7A"]);
    ("green", ["#27AE60"; "#12783D"]);
    ("orange", ["#F39C12"; "#875A12"]);
    ("red", ["#E74C3C"; "#781F16"]) ].

(** [d.get(key, default)] *)
Fixpoint dict_get (V : Type) (d : list (string * V)) (key : string) (default : V)
  : V :=
  match d with
  | [] => default
  | (k, v) :: d' => if String.eqb key k then v else dict_get d' key default
  end.

Definition format_percent (x : Z) : string :=
  (NilZero.string_of_int (Z.to_int x) ++ " %")%string.

(** The data the three layers of the chart are built from. *)
Record Donut : Type := mkDonut {
  chart_color : list string;
  source : list (string * Z);
  source_bg : list (string * Z);
  text : string
}.

Definition make_donut (input_response : Z) (input_text input_color : string)
  : Donut :=
  let chart_color := dict_get chart_colors input_color ["#29b5e8"; "#155F7A"] in
  let source := [("", 100 - input_response); (input_text, input_response)]%Z in
  let source_bg := [("", 100); (input_text, 0)]%Z in
  {| chart_color := chart_color; source := source; source_bg := source_bg;
     text := format_percent input_response |}.

(** The arc weights of a layer: its ["% value"] column. *)
Definition arc_weights (layer : list (string * Z)) : list Z := map snd layer.

(** ** One run of the script (lines 20-123)

    The widgets' answers come in as a [Selection] (what the two select
    boxes and the slider return; how Streamlit draws and validates them is
    not modelled); the page is what the script hands to the display
    calls.  The slider's bounds are computed before the filter runs, the
    choropleth's colour range after the first three charts. *)

Record Page : Type := mkPage {
  page_filtered : DataFrame;
  page_type_counts : Series string;
  page_country_counts : Series string;
  page_time_data : Series Z;
  page_heatmap_data : list (Z * string * nat);
  page_top_countries : Series string
}.

Definition script (sel : Selection) (df : DataFrame) : result Page :=
  _ <- slider_bounds df ;;
  let filtered_df := apply_filters sel df in
  _ <- choropleth_range_max df ;;
  Ok {| page_filtered := filtered_df;
        page_type_counts := type_counts df;
        page_country_counts := country_counts df;
        page_time_data := time_data df;
        page_heatmap_data := heatmap_data df;
        page_top_countries := top_countries_df df |}.

(** The aggregation results a page carries. *)
Definition page_aggregates (p : Page) :=
  (page_type_counts p, page_country_counts p, page_time_data p,
   page_heatmap_data p, page_top_countries p).

(** ** What a filter specification asks of a row *)

Definition exact_or_wildcard (wanted : string) (cell : option string) : Prop :=
  wanted = "All" \/ cell = Some wanted.

Definition in_range (bounds : Z * Z) (cell : option Z) : Prop :=
  exists y, cell = Some y /\ (fst bounds <= y <= snd bounds)%Z.

Definition satisfies (sel : Selection) (r : Row Timestamp) : Prop :=
  exact_or_wildcard (selected_type sel) (type r)
  /\ exact_or_wildcard (selected_country sel) (country r)
  /\ in_range (selected_year sel) (release_year r).

(** [Selects P store view]: [view] is [store] with exactly the rows that
    fail [P] struck out, the others left where they were. *)
Inductive Selects (A : Type) (P : A -> Prop) : list A -> list A -> Prop :=
| Selects_nil : Selects P [] []
| Selects_keep x store view :
    P x -> Selects P store view -> Selects P (x :: store) (x :: view)
| Selects_drop x store view :
    ~ P x -> Selects P store view -> Selects P (x :: store) view.

(** ** Filtering: lemmas *)

Lemma filter_Selects (A : Type) (P : A -> Prop) (p : A -> bool) (l : list A) :
  (forall x, p x = true <-> P x) -> Selects P l (filter p l).
Proof.
  intros Hp. induction l as [|x l IH]; simpl.
  - constructor.
  - destruct (p x) eqn:E.
    + constructor; [apply Hp; exact E | exact IH].
    + apply Selects_drop; [| exact IH].
      intros HP. apply Hp in HP. congruence.
Qed.

Lemma Selects_In (A : Type) (P : A -> Prop) (store view : list A) :
  Selects P store view -> forall x, In x view <-> In x store /\ P x.
Proof.
  induction 1 as [|x store view Hx _ IH|x store view Hx _ IH]; intros y; simpl.
  - tauto.
  - rewrite IH. split.
    + intros [->|[H1 H2]]; auto.
    + intros [[->|H1] H2]; auto.
  - rewrite IH. split.
    + intros [H1 H2]; auto.
    + intros [[->|H1] H2]; [contradiction | auto].
Qed.

Lemma Selects_functional (A : Type) (P : A -> Prop) (store v1 v2 : list A) :
  Selects P store v1 -> Selects P store v2 -> v1 = v2.
Proof.
  intros H1. revert v2.
  induction H1 as [|x store view Hx _ IH|x store view Hx _ IH];
    intros v2 H2; inversion H2; subst; try contradiction; auto.
  f_equal. auto.
Qed.

Lemma filter_filter (A : Type) (p q : A -> bool) (l : list A) :
  filter q (filter p l) = filter (fun x => p x && q x) l.
Proof.
  induction l as [|x l IH]; simpl; [reflexivity|].
  destruct (p x); simpl; [destruct (q x)|]; rewrite IH; reflexivity.
Qed.

Definition satisfiesb (sel : Selection) (r : Row Timestamp) : bool :=
  (String.eqb (selected_type sel) "All" || eq_mask (type r) (selected_type sel))
  && ((String.eqb (selected_country sel) "All"
       || eq_mask (country r) (selected_country sel))
  && (ge_mask (release_year r) (fst (selected_year sel))
      && le_mask (release_year r) (snd (selected_year sel)))).

Lemma eq_mask_true (cell : option string) (value : string) :
  eq_mask cell value = true <-> cell = Some value.
Proof.
  destruct cell as [s|]; simpl.
  - rewrite String.eqb_eq. split; congruence.
  - split; discriminate.
Qed.

Lemma range_mask_true (cell : option Z) (bounds : Z * Z) :
  ge_mask cell (fst bounds) && le_mask cell (snd bounds) = true
  <-> in_range bounds cell.
Proof.
  unfold in_range. destruct cell as [y|]; simpl.
  - rewrite andb_true_iff, !Z.leb_le. split.
    + intros H. exists y. auto.
    + intros [z [Hz H]]. injection Hz as <-. exact H.
  - split; [discriminate | intros [z [Hz _]]; discriminate].
Qed.

Lemma satisfiesb_spec (sel : Selection) (r : Row Timestamp) :
  satisfiesb sel r = true <-> satisfies sel r.
Proof.
  unfold satisfiesb, satisfies, exact_or_wildcard.
  rewrite !andb_true_iff, !orb_true_iff, !String.eqb_eq, !eq_mask_true.
  rewrite <- andb_true_iff, range_mask_true. tauto.
Qed.

Lemma apply_filters_filter (sel : Selection) (df : DataFrame) :
  apply_filters sel df = filter (satisfiesb sel) df.
Proof.
  unfold apply_filters, boolean_index, satisfiesb.
  destruct (String.eqb (selected_type sel) "All");
    destruct (String.eqb (selected_country sel) "All"); simpl;
    rewrite ?filter_filter; reflexivity.
Qed.

Lemma filter_id_iff (A : Type) (p : A -> bool) (l : list A) :
  filter p l = l <-> forall x, In x l -> p x = true.
Proof.
  induction l as [|x l IH]; simpl.
  - split; [intros _ y [] | reflexivity].
  - destruct (p x) eqn:E.
    + split.
      * intros H y [<-|Hy]; [exact E|].
        injection H as H. apply IH; assumption.
      * intros H. f_equal. apply IH. intros y Hy. apply H. right. exact Hy.
    + split.
      * intros H. exfalso.
        assert (Hl : List.length (filter p l) <= List.length l)
          by apply filter_length_le.
        rewrite H in Hl. simpl in Hl. lia.
      * intros H. specialize (H x (or_introl eq_refl)). congruence.
Qed.

(** ** The slider bounds: lemmas *)

Lemma fold_min_le (ys : list Z) (y : Z) :
  (fold_left Z.min ys y <= y)%Z
  /\ forall z, In z ys -> (fold_left Z.min ys y <= z)%Z.
Proof.
  revert y. induction ys as [|a ys IH]; intros y; simpl.
  - split; [lia | intros z []].
  - destruct (IH (Z.min y a)) as [H1 H2]. split; [lia|].
    intros z [<-|Hz]; [lia | auto].
Qed.

Lemma fold_max_ge (ys : list Z) (y : Z) :
  (y <= fold_left Z.max ys y)%Z
  /\ forall z, In z ys -> (z <= fold_left Z.max ys y)%Z.
Proof.
  revert y. induction ys as [|a ys IH]; intros y; simpl.
  - split; [lia | intros z []].
  - destruct (IH (Z.max y a)) as [H1 H2]. split; [lia|].
    intros z [<-|Hz]; [lia | auto].
Qed.

Lemma In_dropna (A : Type) (col : list (option A)) (a : A) :
  In a (dropna col) <-> In (Some a) col.
Proof.
  induction col as [|[b|] col IH]; simpl.
  - tauto.
  - rewrite IH. split; intros [H|H]; auto; left; congruence.
  - rewrite IH. split; [auto | intros [H|H]; [discriminate | exact H]].
Qed.

Lemma dropna_nil_iff (A : Type) (col : list (option A)) :
  dropna col = [] <-> forall c, In c col -> c = None.
Proof.
  induction col as [|[b|] col IH]; simpl.
  - split; [intros _ c [] | reflexivity].
  - split; [discriminate|]. intros H.
    specialize (H (Some b) (or_introl eq_refl)). discriminate.
  - rewrite IH. split.
    + intros H c [<-|Hc]; auto.
    + intros H c Hc. apply H. right. exact Hc.
Qed.

(** The bounds of line 22 enclose every release year of the frame. *)
Lemma slider_bounds_span (df : DataFrame) (lo hi : Z) :
  slider_bounds df = Ok (lo, hi) ->
  forall r y, In r df -> release_year r = Some y -> (lo <= y <= hi)%Z.
Proof.
  unfold slider_bounds, series_min, series_max. intros H r y Hr Hy.
  assert (Hin : In y (dropna (map (@release_year Timestamp) df))).
  { apply In_dropna. rewrite <- Hy. apply in_map. exact Hr. }
  destruct (dropna (map (@release_year Timestamp) df)) as [|y0 ys];
    simpl in H; [discriminate|].
  injection H as <- <-.
  destruct (fold_min_le ys y0) as [Hm1 Hm2].
  destruct (fold_max_ge ys y0) as [HM1 HM2].
  destruct Hin as [<-|Hin]; [lia|].
  specialize (Hm2 _ Hin). specialize (HM2 _ Hin). lia.
Qed.

(** Line 22 raises exactly on a frame without any release year. *)
Lemma slider_bounds_raises (df : DataFrame) :
  slider_bounds df = Raise ValueError
  <-> forall r, In r df -> release_year r = None.
Proof.
  unfold slider_bounds, series_min, series_max.
  destruct (dropna (map (@release_year Timestamp) df)) as [|y0 ys] eqn:E; simpl.
  - split; [|reflexivity]. intros _ r Hr.
    apply (proj1 (dropna_nil_iff _) E). apply in_map. exact Hr.
  - split; [discriminate|]. intros H. exfalso.
    assert (Hnil : dropna (map (@release_year Timestamp) df) = []).
    { apply dropna_nil_iff. intros c Hc. apply in_map_iff in Hc.
      destruct Hc as [r [<- Hr]]. auto. }
    congruence.
Qed.

(** ** The object store: lemmas *)

(** [extends e e']: [e'] has every object of [e] unchanged at its
    reference, and [df] names the same object. *)
Definition extends (e e' : Env) : Prop :=
  (exists fresh, heap e' = heap e ++ fresh) /\ var_df e' = var_df e.

Lemma extends_refl (e : Env) : extends e e.
Proof. split; [exists []; rewrite app_nil_r|]; reflexivity. Qed.

Lemma extends_trans (e1 e2 e3 : Env) :
  extends e1 e2 -> extends e2 e3 -> extends e1 e3.
Proof.
  intros [[f1 H1] V1] [[f2 H2] V2]. split; [|congruence].
  exists (f1 ++ f2). rewrite H2, H1, app_assoc. reflexivity.
Qed.

Lemma extends_deref (e e' : Env) (r : ref) (x : DataFrame) :
  extends e e' -> deref (heap e) r = Some x -> deref (heap e') r = Some x.
Proof.
  intros [[fresh H] _] Hr. unfold deref in *. rewrite H.
  rewrite nth_error_app1; [exact Hr|].
  apply nth_error_Some. congruence.
Qed.

Lemma deref_alloc (h : list DataFrame) (d : DataFrame) :
  deref (fst (alloc h d)) (snd (alloc h d)) = Some d.
Proof.
  unfold deref, alloc. simpl.
  rewrite nth_error_app2, Nat.sub_diag by lia. reflexivity.
Qed.

Lemma stmt_copy_spec (e : Env) (d : DataFrame) :
  deref (heap e) (var_df e) = Some d ->
  exists e1, stmt_copy e = Some e1 /\ extends e e1
             /\ deref (heap e1) (var_filtered_df e1) = Some d.
Proof.
  intros H. unfold stmt_copy. rewrite H. eexists. split; [reflexivity|].
  split; [split; [exists [d]|]; reflexivity|]. apply deref_alloc.
Qed.

Lemma stmt_index_spec (mask : Row Timestamp -> bool) (e : Env) (x : DataFrame) :
  deref (heap e) (var_filtered_df e) = Some x ->
  exists e1, stmt_index mask e = Some e1 /\ extends e e1
             /\ deref (heap e1) (var_filtered_df e1) = Some (boolean_index mask x).
Proof.
  intros H. unfold stmt_index. rewrite H. eexists. split; [reflexivity|].
  split; [split; [exists [boolean_index mask x]|]; reflexivity|].
  apply deref_alloc.
Qed.

Lemma guarded_index_spec (guard : bool) (mask : Row Timestamp -> bool)
    (e : Env) (x : DataFrame) :
  deref (heap e) (var_filtered_df e) = Some x ->
  exists e1, (if guard then stmt_index mask e else Some e) = Some e1
             /\ extends e e1
             /\ deref (heap e1) (var_filtered_df e1)
                = Some (if guard then boolean_index mask x else x).
Proof.
  intros H. destruct guard.
  - apply stmt_index_spec. exact H.
  - exists e. split; [reflexivity|]. split; [apply extends_refl | exact H].
Qed.

Lemma filter_block_spec (sel : Selection) (e : Env) (d : DataFrame) :
  deref (heap e) (var_df e) = Some d ->
  exists e', filter_block sel e = Some e' /\ extends e e'
             /\ deref (heap e') (var_filtered_df e') = Some (apply_filters sel d).
Proof.
  intros H. unfold filter_block.
  destruct (stmt_copy_spec e H) as [e1 [-> [X1 D1]]]. simpl.
  destruct (guarded_index_spec
              (negb (String.eqb (selected_type sel) "All"))
              (fun r => eq_mask (type r) (selected_type sel)) e1 D1)
    as [e2 [-> [X2 D2]]]. simpl.
  destruct (guarded_index_spec
              (negb (String.eqb (selected_country sel) "All"))
              (fun r => eq_mask (country r) (selected_country sel)) e2 D2)
    as [e3 [-> [X3 D3]]]. simpl.
  destruct (stmt_index_spec
              (fun r => ge_mask (release_year r) (fst (selected_year sel))
                        && le_mask (release_year r) (snd (selected_year sel)))
              e3 D3) as [e4 [-> [X4 D4]]].
  exists e4. split; [reflexivity|]. split.
  - eauto using extends_trans.
  - exact D4.
Qed.

(** ** Series of counts: lemmas *)

(** [series.sum()] *)
Definition total (K : Type) (s : Series K) : nat :=
  fold_right (fun entry acc => snd entry + acc) 0 s.

(** The count recorded for a label, 0 when the label is absent. *)
Fixpoint count_of (k : string) (s : Series string) : nat :=
  match s with
  | [] => 0
  | (k', c) :: s' => if String.eqb k k' then c else count_of k s'
  end.

Definition has_count (K : Type) (c : nat) (entry : K * nat) : bool :=
  Nat.eqb (snd entry) c.

(** Most frequent first. *)
Definition Descending (K : Type) (s : Series K) : Prop :=
  StronglySorted (fun a b : K * nat => snd b <= snd a) s.

Section SortValues.

Variable K : Type.
Implicit Types (x : K * nat) (s : Series K).

Lemma insert_desc_perm x s : Permutation (x :: s) (insert_desc x s).
Proof.
  induction s as [|y s IH]; simpl; [reflexivity|].
  destruct (snd x <? snd y)%nat; [|reflexivity].
  rewrite perm_swap. apply perm_skip. exact IH.
Qed.

Lemma sort_values_desc_perm s : Permutation s (sort_values_desc s).
Proof.
  induction s as [|x s IH]; simpl; [reflexivity|].
  rewrite <- insert_desc_perm. apply perm_skip. exact IH.
Qed.

Lemma insert_desc_sorted x s : Descending s -> Descending (insert_desc x s).
Proof.
  unfold Descending. induction 1 as [|y s Hs IH Hy]; simpl.
  - repeat constructor.
  - destruct (Nat.ltb_spec (snd x) (snd y)) as [Hlt|Hge].
    + constructor; [exact IH|].
      apply Forall_forall. intros z Hz.
      apply (Permutation_in _ (Permutation_sym (insert_desc_perm x s))) in Hz.
      destruct Hz as [<-|Hz]; [lia|].
      rewrite Forall_forall in Hy. auto.
    + constructor; [constructor; assumption|].
      constructor; [exact Hge|].
      rewrite Forall_forall in Hy |- *. intros z Hz.
      specialize (Hy z Hz). lia.
Qed.

Lemma sort_values_desc_sorted s : Descending (sort_values_desc s).
Proof.
  induction s as [|x s IH]; simpl.
  - constructor.
  - apply insert_desc_sorted. exact IH.
Qed.

(** Stability: entries with one and the same count keep their order. *)
Lemma insert_desc_stable (c : nat) x s :
  filter (has_count c) (insert_desc x s) = filter (has_count c) (x :: s).
Proof.
  induction s as [|y s IH]; [reflexivity|].
  simpl insert_desc.
  destruct (Nat.ltb_spec (snd x) (snd y)) as [Hlt|Hge]; [|reflexivity].
  change (filter (has_count c) (y :: insert_desc x s))
    with (if has_count c y
          then y :: filter (has_count c) (insert_desc x s)
          else filter (has_count c) (insert_desc x s)).
  rewrite IH. simpl. unfold has_count.
  destruct (Nat.eqb_spec (snd y) c), (Nat.eqb_spec (snd x) c);
    try reflexivity.
  lia.
Qed.

Lemma sort_values_desc_stable (c : nat) s :
  filter (has_count c) (sort_values_desc s) = filter (has_count c) s.
Proof.
  induction s as [|x s IH]; [reflexivity|].
  simpl sort_values_desc. rewrite insert_desc_stable. simpl.
  rewrite IH. reflexivity.
Qed.

Lemma sort_values_desc_id s : Descending s -> sort_values_desc s = s.
Proof.
  unfold Descending. induction 1 as [|x s Hs IH Hx]; [reflexivity|].
  simpl. rewrite IH. destruct s as [|y s]; [reflexivity|]. simpl.
  apply Forall_inv in Hx.
  destruct (Nat.ltb_spec (snd x) (snd y)); [lia | reflexivity].
Qed.

Lemma total_perm s s' : Permutation s s' -> total s = total s'.
Proof.
  induction 1; simpl; lia.
Qed.

Lemma filter_firstn_prefix (p : K * nat -> bool) (n : nat) s :
  exists later, filter p s = filter p (firstn n s) ++ later.
Proof.
  exists (filter p (skipn n s)).
  rewrite <- filter_app, firstn_skipn. reflexivity.
Qed.

Lemma Descending_firstn_skipn (n : nat) s a e :
  Descending s -> In a (firstn n s) -> In e (skipn n s) -> snd e <= snd a.
Proof.
  unfold Descending. intros Hs. revert n.
  induction Hs as [|x s Hs IH Hx]; intros n Ha He.
  - destruct n; destruct Ha.
  - destruct n as [|n]; [destruct Ha|].
    simpl in Ha, He. destruct Ha as [<-|Ha].
    + rewrite Forall_forall in Hx. apply Hx.
      rewrite <- (firstn_skipn n s). apply in_or_app. right. exact He.
    + eapply IH; eassumption.
Qed.

Lemma nlargest_nonpos (n : Z) s : (n <= 0)%Z -> nlargest n s = [].
Proof.
  intros H. unfold nlargest.
  destruct (Z.leb_spec n 0); [reflexivity | lia].
Qed.

Lemma nlargest_pos (n : Z) s :
  (0 < n)%Z -> nlargest n s = firstn (Z.to_nat n) (sort_values_desc s).
Proof.
  intros H. unfold nlargest.
  destruct (Z.leb_spec n 0); [lia | reflexivity].
Qed.

Lemma nlargest_length (n : Z) s :
  (0 <= n)%Z -> (Z.of_nat (List.length (nlargest n s)) <= n)%Z.
Proof.
  intros H. destruct (Z.eq_dec n 0) as [->|Hn].
  - rewrite nlargest_nonpos by lia. simpl. lia.
  - rewrite nlargest_pos by lia. rewrite length_firstn. lia.
Qed.

Lemma nlargest_all (n : Z) s :
  (Z.of_nat (List.length s) <= n)%Z -> Permutation s (nlargest n s).
Proof.
  intros H. destruct s as [|x s].
  - unfold nlargest. destruct (n <=? 0)%Z; [reflexivity|].
    simpl. rewrite firstn_nil. reflexivity.
  - rewrite nlargest_pos by (simpl in H; lia).
    rewrite firstn_all2.
    + apply sort_values_desc_perm.
    + rewrite <- (Permutation_length (sort_values_desc_perm (x :: s))). lia.
Qed.

Lemma nlargest_dominates (n : Z) s a e :
  In a (nlargest n s) -> In e s -> ~ In e (nlargest n s) -> snd e <= snd a.
Proof.
  intros Ha He Hout. destruct (Z.leb_spec n 0) as [Hn|Hn].
  - rewrite nlargest_nonpos in Ha by exact Hn. destruct Ha.
  - rewrite nlargest_pos in Ha, Hout by exact Hn.
    eapply Descending_firstn_skipn;
      [apply sort_values_desc_sorted | exact Ha |].
    apply (Permutation_in _ (sort_values_desc_perm s)) in He.
    rewrite <- (firstn_skipn (Z.to_nat n) (sort_values_desc s)) in He.
    apply in_app_or in He. destruct He; [contradiction | assumption].
Qed.

Lemma nlargest_keep_first (n : Z) (c : nat) s :
  exists later,
    filter (has_count c) s = filter (has_count c) (nlargest n s) ++ later.
Proof.
  destruct (Z.leb_spec n 0) as [Hn|Hn].
  - rewrite nlargest_nonpos by exact Hn. simpl. eauto.
  - rewrite nlargest_pos by exact Hn.
    rewrite <- (sort_values_desc_stable c s).
    apply filter_firstn_prefix.
Qed.

End SortValues.

(** ** Value counts: lemmas *)

Definition tally_step (acc : Series string) (cell : option string)
  : Series string :=
  match cell with
  | Some k => bump k acc
  | None => acc
  end.

Lemma tally_unfold (col : list (option string)) :
  tally col = fold_left tally_step col [].
Proof. reflexivity. Qed.

Lemma total_bump (k : string) (s : Series string) :
  total (bump k s) = S (total s).
Proof.
  induction s as [|[k' c] s IH]; simpl; [reflexivity|].
  destruct (String.eqb k k'); simpl; lia.
Qed.

Lemma total_fold_tally (col : list (option string)) (acc : Series string) :
  total (fold_left tally_step col acc) = total acc + List.length (dropna col).
Proof.
  revert acc. induction col as [|[k|] col IH]; intros acc; simpl.
  - lia.
  - rewrite IH, total_bump. lia.
  - apply IH.
Qed.

Lemma count_of_bump (k k2 : string) (s : Series string) :
  count_of k2 (bump k s)
  = if String.eqb k2 k then S (count_of k2 s) else count_of k2 s.
Proof.
  induction s as [|[k' c] s IH]; simpl.
  - destruct (String.eqb k2 k); reflexivity.
  - destruct (String.eqb_spec k k') as [->|Hk]; simpl.
    + destruct (String.eqb k2 k'); reflexivity.
    + destruct (String.eqb_spec k2 k') as [->|Hk2].
      * destruct (String.eqb_spec k' k); [congruence | reflexivity].
      * exact IH.
Qed.

(** How many cells of the column hold the label [k]. *)
Definition occurrences (k : string) (col : list (option string)) : nat :=
  List.length (filter (fun cell => eq_mask cell k) col).

Lemma count_of_fold_tally (k : string) (col : list (option string))
    (acc : Series string) :
  count_of k (fold_left tally_step col acc) = count_of k acc + occurrences k col.
Proof.
  unfold occurrences. revert acc.
  induction col as [|[k'|] col IH]; intros acc; simpl.
  - lia.
  - rewrite IH, count_of_bump. rewrite (String.eqb_sym k' k).
    destruct (String.eqb k k'); simpl; lia.
  - apply IH.
Qed.

Lemma bump_keys (k : string) (s : Series string) :
  map fst (bump k s) = map fst s
  \/ (~ In k (map fst s) /\ map fst (bump k s) = map fst s ++ [k]).
Proof.
  induction s as [|[k' c] s IH]; simpl.
  - right. split; [tauto | reflexivity].
  - destruct (String.eqb_spec k k') as [->|Hk]; simpl; [left; reflexivity|].
    destruct IH as [IH|[Hn IH]]; rewrite IH.
    + left. reflexivity.
    + right. split; [|reflexivity]. intros [H|H]; [congruence | contradiction].
Qed.

Lemma bump_positive (k : string) (s : Series string) :
  Forall (fun entry => 0 < snd entry) s ->
  Forall (fun entry => 0 < snd entry) (bump k s).
Proof.
  induction 1 as [|[k' c] s Hc Hs IH]; simpl.
  - repeat constructor.
  - destruct (String.eqb k k'); constructor; simpl in *; auto; lia.
Qed.

Lemma NoDup_snoc (A : Type) (l : list A) (a : A) :
  NoDup l -> ~ In a l -> NoDup (l ++ [a]).
Proof.
  intros Hl Ha. apply (Permutation_NoDup (l := a :: l)).
  - rewrite Permutation_app_comm. reflexivity.
  - constructor; assumption.
Qed.

Lemma fold_tally_invariant (col : list (option string)) (acc : Series string) :
  NoDup (map fst acc) -> Forall (fun entry => 0 < snd entry) acc ->
  NoDup (map fst (fold_left tally_step col acc))
  /\ Forall (fun entry => 0 < snd entry) (fold_left tally_step col acc).
Proof.
  revert acc. induction col as [|[k|] col IH]; intros acc Hn Hp; simpl; auto.
  apply IH.
  - destruct (bump_keys k acc) as [->|[Hk ->]]; [exact Hn|].
    apply NoDup_snoc; assumption.
  - apply bump_positive. exact Hp.
Qed.

Lemma count_of_In (k : string) (c : nat) (s : Series string) :
  NoDup (map fst s) -> In (k, c) s -> count_of k s = c.
Proof.
  induction s as [|[k' c'] s IH]; simpl; intros Hn H; [contradiction|].
  destruct H as [H|H].
  - injection H as -> ->. rewrite String.eqb_refl. reflexivity.
  - inversion Hn as [|? ? Hk Hn']; subst.
    destruct (String.eqb_spec k k') as [->|_]; [|auto].
    exfalso. apply Hk. change k' with (fst (k', c)). apply in_map. exact H.
Qed.

Lemma In_count_of (k : string) (s : Series string) :
  0 < count_of k s -> In (k, count_of k s) s.
Proof.
  induction s as [|[k' c'] s IH]; simpl; intros H; [lia|].
  destruct (String.eqb_spec k k') as [->|_]; auto.
Qed.

(** [value_counts] reports every label once, with the number of cells that
    hold it, and only labels that do occur. *)
Lemma value_counts_entries (col : list (option string)) (k : string) (c : nat) :
  In (k, c) (value_counts col) <-> c = occurrences k col /\ 0 < c.
Proof.
  unfold value_counts. rewrite tally_unfold.
  destruct (@fold_tally_invariant col [] (NoDup_nil _) (Forall_nil _))
    as [Hn Hp].
  assert (Hc : count_of k (fold_left tally_step col []) = occurrences k col)
    by (rewrite count_of_fold_tally; reflexivity).
  split.
  - intros H.
    apply (Permutation_in _ (Permutation_sym (sort_values_desc_perm _))) in H.
    split.
    + rewrite <- Hc. symmetry. apply count_of_In; assumption.
    + rewrite Forall_forall in Hp. apply (Hp _ H).
  - intros [-> Hpos].
    apply (Permutation_in _ (sort_values_desc_perm _)).
    rewrite <- Hc. apply In_count_of. rewrite Hc. exact Hpos.
Qed.

Lemma value_counts_keys_NoDup (col : list (option string)) :
  NoDup (map fst (value_counts col)).
Proof.
  unfold value_counts. rewrite tally_unfold.
  destruct (@fold_tally_invariant col [] (NoDup_nil _) (Forall_nil _))
    as [Hn _].
  eapply Permutation_NoDup; [|exact Hn].
  apply Permutation_map. apply sort_values_desc_perm.
Qed.

Lemma value_counts_total (col : list (option string)) :
  total (value_counts col) = List.length (dropna col).
Proof.
  unfold value_counts.
  rewrite <- (total_perm (sort_values_desc_perm (tally col))).
  rewrite tally_unfold, total_fold_tally. reflexivity.
Qed.

Lemma dropna_length (A : Type) (col : list (option A)) :
  List.length (dropna col) <= List.length col
  /\ (List.length (dropna col) = List.length col
      <-> forall c, In c col -> c <> None).
Proof.
  induction col as [|[a|] col [IH1 IH2]]; simpl.
  - split; [lia|]. split; [intros _ c [] | reflexivity].
  - split; [lia|]. split.
    + intros H c [<-|Hc]; [discriminate|]. apply IH2; [lia | exact Hc].
    + intros H. f_equal. apply IH2. intros c Hc. apply H. right. exact Hc.
  - split; [lia|]. split; [lia|].
    intros H. exfalso. apply (H None); [left|]; reflexivity.
Qed.

(** ** Grouping: lemmas *)

Section GroupByFacts.

Variable K : Type.
Variable cmp : K -> K -> comparison.

Hypothesis cmp_eq : forall a b, cmp a b = Eq <-> a = b.
Hypothesis cmp_gt : forall a b, cmp a b = Gt -> cmp b a = Lt.
Hypothesis cmp_trans : forall a b c, cmp a b = Lt -> cmp b c = Lt -> cmp a c = Lt.

Definition klt (a b : K) : Prop := cmp a b = Lt.

Definition keys (g : Groups K) : list K := map fst g.

(** The rows grouped under [k], none when [k] is no key. *)
Fixpoint rows_of (k : K) (g : Groups K) : DataFrame :=
  match g with
  | [] => []
  | (k', rows) :: g' =>
      match cmp k k' with
      | Eq => rows
      | _ => rows_of k g'
      end
  end.

(** Whether a row's key is [k]. *)
Definition keyed (key : Row Timestamp -> option K) (k : K)
    (r : Row Timestamp) : bool :=
  match key r with
  | Some k' => match cmp k k' with Eq => true | _ => false end
  | None => false
  end.

Definition group_step (key : Row Timestamp -> option K) (g : Groups K)
    (r : Row Timestamp) : Groups K :=
  match key r with
  | Some k => add_to_group cmp k r g
  | None => g
  end.

Lemma klt_irrefl (a : K) : ~ klt a a.
Proof.
  unfold klt. intros H. assert (E : cmp a a = Eq) by (apply cmp_eq; reflexivity).
  congruence.
Qed.

Lemma add_to_group_keys (k k2 : K) (r : Row Timestamp) (g : Groups K) :
  In k2 (keys (add_to_group cmp k r g)) <-> k2 = k \/ In k2 (keys g).
Proof.
  unfold keys. induction g as [|[k' rows] g IH]; simpl.
  - intuition.
  - destruct (cmp k k') eqn:E; simpl.
    + apply cmp_eq in E. subst k'. intuition.
    + intuition.
    + rewrite IH. intuition.
Qed.

Lemma add_to_group_sorted (k : K) (r : Row Timestamp) (g : Groups K) :
  StronglySorted klt (keys g) ->
  StronglySorted klt (keys (add_to_group cmp k r g)).
Proof.
  induction g as [|[k' rows] g IH]; simpl; intros Hs.
  - repeat constructor.
  - inversion Hs as [|? ? Hs' Hall]; subst.
    destruct (cmp k k') eqn:E; simpl.
    + exact Hs.
    + constructor; [exact Hs|].
      constructor; [exact E|].
      rewrite Forall_forall in Hall |- *. intros z Hz.
      apply (cmp_trans E). apply Hall. exact Hz.
    + constructor; [apply IH; exact Hs'|].
      apply Forall_forall. intros z Hz.
      apply add_to_group_keys in Hz. destruct Hz as [->|Hz].
      * apply cmp_gt. exact E.
      * rewrite Forall_forall in Hall. apply Hall. exact Hz.
Qed.

Lemma rows_of_absent (k : K) (g : Groups K) :
  ~ In k (keys g) -> rows_of k g = [].
Proof.
  induction g as [|[k' rows] g IH]; simpl; intros H; [reflexivity|].
  destruct (cmp k k') eqn:E.
  - apply cmp_eq in E. subst k'. exfalso. apply H. left. reflexivity.
  - apply IH. intros Hk. apply H. right. exact Hk.
  - apply IH. intros Hk. apply H. right. exact Hk.
Qed.

Lemma sorted_head_absent (k k' : K) (ks : list K) :
  StronglySorted klt (k' :: ks) -> klt k k' -> ~ In k (k' :: ks).
Proof.
  intros Hs Hlt Hin. inversion Hs as [|? ? _ Hall]; subst.
  destruct Hin as [->|Hin].
  - exact (klt_irrefl Hlt).
  - rewrite Forall_forall in Hall.
    exact (klt_irrefl (cmp_trans Hlt (Hall _ Hin))).
Qed.

Lemma rows_of_add_same (k : K) (r : Row Timestamp) (g : Groups K) :
  StronglySorted klt (keys g) ->
  rows_of k (add_to_group cmp k r g) = rows_of k g ++ [r].
Proof.
  assert (Hkk : cmp k k = Eq) by (apply cmp_eq; reflexivity).
  induction g as [|[k' rows] g IH]; simpl; intros Hs.
  - rewrite Hkk. reflexivity.
  - destruct (cmp k k') eqn:E; simpl.
    + rewrite E. reflexivity.
    + rewrite Hkk.
      rewrite rows_of_absent; [reflexivity|].
      intros Hin. apply (@sorted_head_absent k k' (keys g) Hs E).
      right. exact Hin.
    + rewrite E. apply IH. inversion Hs; assumption.
Qed.

Lemma rows_of_add_other (k k2 : K) (r : Row Timestamp) (g : Groups K) :
  k2 <> k -> rows_of k2 (add_to_group cmp k r g) = rows_of k2 g.
Proof.
  intros Hne. induction g as [|[k' rows] g IH]; simpl.
  - destruct (cmp k2 k) eqn:E; try reflexivity.
    apply cmp_eq in E. contradiction.
  - destruct (cmp k k') eqn:E; simpl.
    + apply cmp_eq in E. subst k'.
      destruct (cmp k2 k) eqn:E2; try reflexivity.
      apply cmp_eq in E2. contradiction.
    + destruct (cmp k2 k) eqn:E2; try reflexivity.
      apply cmp_eq in E2. contradiction.
    + rewrite IH. reflexivity.
Qed.

Lemma add_to_group_nonempty (k : K) (r : Row Timestamp) (g : Groups K) :
  Forall (fun entry => snd entry <> []) g ->
  Forall (fun entry => snd entry <> []) (add_to_group cmp k r g).
Proof.
  induction 1 as [|[k' rows] g Hc Hs IH]; simpl.
  - repeat constructor. discriminate.
  - destruct (cmp k k'); constructor; simpl in *; auto.
    + destruct rows; discriminate.
    + discriminate.
Qed.

Variable key : Row Timestamp -> option K.

Lemma groupby_unfold (df : DataFrame) :
  groupby cmp key df = fold_left (group_step key) df [].
Proof. reflexivity. Qed.

Lemma group_step_invariant (r : Row Timestamp) (acc : Groups K) :
  StronglySorted klt (keys acc) ->
  Forall (fun entry => snd entry <> []) acc ->
  StronglySorted klt (keys (group_step key acc r))
  /\ Forall (fun entry => snd entry <> []) (group_step key acc r)
  /\ forall k, rows_of k (group_step key acc r)
               = rows_of k acc ++ (if keyed key k r then [r] else []).
Proof.
  intros Hs Hn. unfold group_step, keyed.
  destruct (key r) as [k0|].
  - split; [apply add_to_group_sorted; exact Hs|].
    split; [apply add_to_group_nonempty; exact Hn|].
    intros k. destruct (cmp k k0) eqn:E.
    + apply cmp_eq in E. subst k0. apply rows_of_add_same. exact Hs.
    + rewrite app_nil_r. apply rows_of_add_other.
      intros ->. apply (@klt_irrefl k0). exact E.
    + rewrite app_nil_r. apply rows_of_add_other.
      intros ->. apply cmp_gt in E. apply (@klt_irrefl k0). exact E.
  - repeat split; auto. intros k. rewrite app_nil_r. reflexivity.
Qed.

Lemma fold_group_invariant (df : DataFrame) (acc : Groups K) :
  StronglySorted klt (keys acc) ->
  Forall (fun entry => snd entry <> []) acc ->
  StronglySorted klt (keys (fold_left (group_step key) df acc))
  /\ Forall (fun entry => snd entry <> []) (fold_left (group_step key) df acc)
  /\ forall k, rows_of k (fold_left (group_step key) df acc)
               = rows_of k acc ++ filter (keyed key k) df.
Proof.
  revert acc. induction df as [|r df IH]; intros acc Hs Hn.
  - simpl. repeat split; auto. intros k. rewrite app_nil_r. reflexivity.
  - destruct (group_step_invariant r Hs Hn) as [S1 [S2 S3]].
    destruct (IH _ S1 S2) as [H1 [H2 H3]].
    change (fold_left (group_step key) (r :: df) acc)
      with (fold_left (group_step key) df (group_step key acc r)).
    repeat split; auto. intros k. rewrite H3, S3, <- app_assoc.
    f_equal. simpl. destruct (keyed key k r); reflexivity.
Qed.

Lemma In_rows_of (k : K) (rows : DataFrame) (g : Groups K) :
  StronglySorted klt (keys g) -> In (k, rows) g -> rows_of k g = rows.
Proof.
  induction g as [|[k' rows'] g IH]; simpl; intros Hs H; [contradiction|].
  destruct H as [H|H].
  - injection H as -> ->.
    assert (E : cmp k k = Eq) by (apply cmp_eq; reflexivity).
    rewrite E. reflexivity.
  - destruct (cmp k k') eqn:E.
    + apply cmp_eq in E. subst k'. exfalso.
      inversion Hs as [|? ? _ Hall]; subst. rewrite Forall_forall in Hall.
      apply (@klt_irrefl k). apply Hall.
      change k with (fst (k, rows)). apply in_map. exact H.
    + apply IH; [inversion Hs; assumption | exact H].
    + apply IH; [inversion Hs; assumption | exact H].
Qed.

Lemma rows_of_In (k : K) (g : Groups K) :
  rows_of k g <> [] -> In (k, rows_of k g) g.
Proof.
  induction g as [|[k' rows'] g IH]; simpl; intros H; [congruence|].
  destruct (cmp k k') eqn:E.
  - apply cmp_eq in E. subst k'. left. reflexivity.
  - right. apply IH. exact H.
  - right. apply IH. exact H.
Qed.

(** The groups of a frame: keys strictly ascending, and under each key
    exactly the rows that carry it, in frame order. *)
Lemma groupby_spec (df : DataFrame) :
  StronglySorted klt (keys (groupby cmp key df))
  /\ forall k rows,
       In (k, rows) (groupby cmp key df)
       <-> rows = filter (keyed key k) df /\ rows <> [].
Proof.
  rewrite groupby_unfold.
  destruct (@fold_group_invariant df [] (SSorted_nil _) (Forall_nil _))
    as [Hs [Hn Hr]].
  split; [exact Hs|]. intros k rows. split.
  - intros H. split.
    + rewrite <- (@In_rows_of k rows _ Hs H). apply Hr.
    + rewrite Forall_forall in Hn. apply (Hn _ H).
  - intros [-> Hne].
    assert (E : rows_of k (fold_left (group_step key) df [])
                = filter (keyed key k) df) by apply Hr.
    rewrite <- E in Hne |- *. apply rows_of_In. exact Hne.
Qed.

(** Rows without a key never reach a group. *)
Lemma groupby_dropna (df : DataFrame) :
  groupby cmp key df
  = groupby cmp key
      (filter (fun r => match key r with Some _ => true | None => false end) df).
Proof.
  rewrite !groupby_unfold. generalize (@nil (K * DataFrame)).
  induction df as [|r df IH]; intros acc; simpl; [reflexivity|].
  unfold group_step at 2. destruct (key r) as [k|] eqn:E; simpl.
  - unfold group_step at 3. rewrite E. apply IH.
  - apply IH.
Qed.

End GroupByFacts.

(** Rows whose date of addition falls in the calendar year [y]. *)
Definition added_in (y : Z) (r : Row Timestamp) : bool :=
  match date_added r with
  | Some added => (ts_year added =? y)%Z
  | None => false
  end.

Lemma keyed_added_in (y : Z) (r : Row Timestamp) :
  keyed Z.compare dt_year y r = added_in y r.
Proof.
  unfold keyed, added_in, dt_year.
  destruct (date_added r) as [added|]; simpl; [|reflexivity].
  destruct (Z.compare_spec y (ts_year added)), (Z.eqb_spec (ts_year added) y);
    try reflexivity; lia.
Qed.

Lemma Z_compare_gt_lt (a b : Z) : Z.compare a b = Gt -> Z.compare b a = Lt.
Proof. rewrite Z.compare_gt_iff, Z.compare_lt_iff. trivial. Qed.

Lemma Z_compare_lt_trans (a b c : Z) :
  Z.compare a b = Lt -> Z.compare b c = Lt -> Z.compare a c = Lt.
Proof. rewrite !Z.compare_lt_iff. lia. Qed.

Lemma groupby_year_spec (df : DataFrame) :
  StronglySorted Z.lt (map fst (groupby Z.compare dt_year df))
  /\ forall y rows,
       In (y, rows) (groupby Z.compare dt_year df)
       <-> rows = filter (added_in y) df /\ rows <> [].
Proof.
  destruct (@groupby_spec Z Z.compare Z.compare_eq_iff Z_compare_gt_lt
              Z_compare_lt_trans dt_year df) as [Hs Hr].
  split; [exact Hs|]. intros y rows. rewrite Hr.
  rewrite (filter_ext _ _ (keyed_added_in y)). reflexivity.
Qed.

Lemma count_column_keys (K A : Type) (column : Row Timestamp -> option A)
    (g : Groups K) :
  map fst (count_column column g) = map fst g.
Proof.
  unfold count_column. rewrite map_map. apply map_ext. intros [k rows].
  reflexivity.
Qed.

(** Whether a cell holds a value ([series.notna()]). *)
Definition present (A : Type) (cell : option A) : bool :=
  match cell with
  | Some _ => true
  | None => false
  end.

Lemma dropna_app (A : Type) (l l' : list (option A)) :
  dropna (l ++ l') = dropna l ++ dropna l'.
Proof.
  induction l as [|[a|] l IH]; simpl; [reflexivity | f_equal | ]; exact IH.
Qed.

Lemma dropna_present (A B : Type) (column : B -> option A) (rows : list B) :
  List.length (dropna (map column rows))
  = List.length (filter (fun r => present (column r)) rows).
Proof.
  induction rows as [|r rows IH]; simpl; [reflexivity|].
  destruct (column r); simpl; rewrite IH; reflexivity.
Qed.

Lemma dropna_all_present (A B : Type) (f : A -> option B) (l : list A) :
  (forall a, In a l -> f a <> None) ->
  List.length (dropna (map f l)) = List.length l.
Proof.
  intros H. rewrite <- (length_map f l). apply dropna_length.
  intros c Hc. apply in_map_iff in Hc. destruct Hc as [a [<- Ha]]. auto.
Qed.

(** ** Loading: lemmas *)

Section LoadingFacts.

Variable parse : string -> option Timestamp.

(** What a loaded cell must be, given the cell of the file. *)
Definition parsed_cell (cell : option string) (t : option Timestamp) : Prop :=
  match cell with
  | None => t = None
  | Some text => parse text = t /\ t <> None
  end.

(** A loaded row: the file's row with its date parsed. *)
Definition loaded_from (raw : Row string) (row : Row Timestamp) : Prop :=
  show_id row = show_id raw
  /\ type row = type raw
  /\ country row = country raw
  /\ release_year row = release_year raw
  /\ parsed_cell (date_added raw) (date_added row).

Lemma to_datetime_raises (col : list (option string)) :
  (exists text, In (Some text) col /\ parse text = None) ->
  to_datetime parse col = Raise ValueError.
Proof.
  induction col as [|[text|] col IH]; simpl; intros [bad [Hin Hbad]].
  - destruct Hin.
  - destruct (parse text) eqn:E.
    + rewrite IH; [reflexivity|].
      destruct Hin as [Hin|Hin]; [congruence | eauto].
    + reflexivity.
  - rewrite IH; [reflexivity|].
    destruct Hin as [Hin|Hin]; [discriminate | eauto].
Qed.

Lemma to_datetime_ok (col : list (option string)) :
  (forall text, In (Some text) col -> parse text <> None) ->
  exists parsed, to_datetime parse col = Ok parsed
                 /\ Forall2 parsed_cell col parsed.
Proof.
  induction col as [|[text|] col IH]; simpl; intros H.
  - exists []. split; [reflexivity | constructor].
  - destruct IH as [parsed [-> HF]]; [intros t Ht; apply H; auto|].
    destruct (parse text) as [t|] eqn:E.
    + exists (Some t :: parsed). split; [reflexivity|].
      constructor; [|exact HF]. simpl. split; [exact E | discriminate].
    + exfalso. apply (H text); auto.
  - destruct IH as [parsed [-> HF]]; [intros t Ht; apply H; auto|].
    exists (None :: parsed). split; [reflexivity|].
    constructor; [reflexivity | exact HF].
Qed.

Lemma assign_date_added_spec (csv : RawFrame) (col : list (option Timestamp)) :
  Forall2 parsed_cell (map (@date_added string) csv) col ->
  Forall2 loaded_from csv (assign_date_added csv col).
Proof.
  revert col. induction csv as [|raw csv IH]; intros col H; simpl in *.
  - constructor.
  - inversion H as [|? c ? col' Hc Hrest]; subst.
    constructor; [|apply IH; exact Hrest].
    unfold loaded_from. simpl. auto.
Qed.

End LoadingFacts.

(** ** The donut chart: lemmas *)




Lemma make_donut_chart_color (input_response : Z)
    (input_text input_color : string) :
  chart_color (make_donut input_response input_text input_color)
  = dict_get chart_colors input_color ["#29b5e8"; "#155F7A"].
Proof. reflexivity. Qed.

(** ** The filter block: edge cases *)

Lemma apply_filters_empty (sel : Selection) : apply_filters sel [] = [].
Proof.
  rewrite apply_filters_filter. reflexivity.
Qed.

Lemma apply_filters_no_match (sel : Selection) (df : DataFrame) :
  (forall r, In r df -> ~ satisfies sel r) -> apply_filters sel df = [].
Proof.
  intros H. rewrite apply_filters_filter.
  destruct (filter (satisfiesb sel) df) as [|r view] eqn:E; [reflexivity|].
  assert (Hr : In r (filter (satisfiesb sel) df)) by (rewrite E; left; reflexivity).
  apply filter_In in Hr. destruct Hr as [Hin Hs].
  apply satisfiesb_spec in Hs. exfalso. exact (H r Hin Hs).
Qed.

(** ** Sample frames *)

Definition sample_row (id kind place : string) (y : Z) (added : option Timestamp)
  : Row Timestamp :=
  {| show_id := Some id; type := Some kind; country := Some place;
     release_year := Some y; date_added := added |}.

Definition four_years : DataFrame :=
  [ sample_row "s1" "Movie" "India" 2014 (Some (mkTimestamp 2020 1 1));
    sample_row "s2" "TV Show" "Japan" 2015 (Some (mkTimestamp 2021 7 7));
    sample_row "s3" "Movie" "India" 2016 (Some (mkTimestamp 2019 5 2));
    sample_row "s4" "Movie" "Japan" 2017 (Some (mkTimestamp 2020 3 3)) ].

Definition no_year_row : Row Timestamp :=
  {| show_id := Some "s9"; type := Some "Movie"; country := Some "India";
     release_year := None; date_added := None |}.

Definition tied_countries : list (option string) :=
  map Some ["UK"; "IN"; "UK"; "IN"; "US"; "US"; "US"].

Definition sample_csv : RawFrame :=
  [ {| show_id := Some "s1"; type := Some "Movie"; country := Some "India";
       release_year := Some 2020%Z; date_added := Some "2021-09-25" |};
    {| show_id := Some "s2"; type := Some "Movie"; country := None;
       release_year := Some 2019%Z; date_added := None |} ].

Definition broken_csv : RawFrame :=
  [ {| show_id := Some "s1"; type := Some "Movie"; country := Some "India";
       release_year := Some 2020%Z; date_added := Some "2021-09-25" |};
    {| show_id := Some "s2"; type := Some "Movie"; country := None;
       release_year := Some 2019%Z; date_added := Some "not a date" |} ].

(** The scenario of the year filter: of the years 2014 to 2017, the range
    2015 to 2016 keeps the second and third row, in that order. *)
Example filter_2015_2016 :
  map (@show_id Timestamp)
      (apply_filters (mkSelection "All" "All" (2015, 2016)%Z) four_years)
  = [Some "s2"; Some "s3"].
Proof. reflexivity. Qed.

(** The scenario of the value counts: three movies and two series. *)
Example value_counts_kinds :
  value_counts (map Some ["Movie"; "Series"; "Movie"; "Series"; "Movie"])
  = [("Movie", 3); ("Series", 2)].
Proof. reflexivity. Qed.

(** * The claims *)

(** ** Predicate filter *)

(** C1: for every store and every selection (type and country each exact
    or the wildcard "All", release year within an inclusive range), the
    filter block returns the store with exactly the rows failing some
    constraint struck out: a row is in the view iff it is in the store and
    meets all three constraints at once, and the kept rows stay in their
    original order. *)
Theorem filter_selects_all_constraints (sel : Selection) (df : DataFrame) :
  Selects (satisfies sel) df (apply_filters sel df)
  /\ (forall r, In r (apply_filters sel df) <-> In r df /\ satisfies sel r).
Proof.
  assert (H : Selects (satisfies sel) df (apply_filters sel df)).
  { rewrite apply_filters_filter. apply filter_Selects.
    intros r. apply satisfiesb_spec. }
  split; [exact H | exact (Selects_In H)].
Qed.

(** ** Data flow *)

(** The five aggregations of the page, taken over a given frame. *)
Definition aggregates_of (view : DataFrame) :=
  (type_counts view, country_counts view, time_data view,
   heatmap_data view, top_countries_df view).

(** C2, as stated, fails: with the type set to "Movie" the page's type
    counts, top countries, yearly counts and year-by-country counts all
    differ from the same aggregations of the filtered view. *)
Lemma aggregates_not_of_filtered_view :
  exists page,
    script (mkSelection "Movie" "All" (2000, 2020)%Z) four_years = Ok page
    /\ page_type_counts page <> type_counts (page_filtered page)
    /\ page_country_counts page <> country_counts (page_filtered page)
    /\ page_time_data page <> time_data (page_filtered page)
    /\ page_heatmap_data page <> heatmap_data (page_filtered page).
Proof.
  eexists. split; [reflexivity|].
  repeat split; vm_compute; discriminate.
Qed.

(** C2, amended: whenever the script produces a page, its filtered table
    is the filter block's view, while every aggregation on it is taken
    over the full store, so that any other selection yields the same
    aggregations. *)
Theorem aggregates_over_full_store (sel : Selection) (df : DataFrame)
    (page : Page) :
  script sel df = Ok page ->
  page_filtered page = apply_filters sel df
  /\ page_aggregates page = aggregates_of df
  /\ forall sel', exists page',
       script sel' df = Ok page'
       /\ page_aggregates page' = page_aggregates page.
Proof.
  unfold script. intros H.
  destruct (slider_bounds df) as [bounds|e]; simpl in *; [|discriminate].
  destruct (choropleth_range_max df) as [top|e]; simpl in *; [|discriminate].
  injection H as <-. repeat split.
  intros sel'. eexists. split; reflexivity.
Qed.

(** The amended C2 on the sample frame with the type set to "Movie". *)
Lemma aggregates_over_full_store_witness :
  page_aggregates
    {| page_filtered := apply_filters (mkSelection "Movie" "All" (2000, 2020)%Z)
                                      four_years;
       page_type_counts := type_counts four_years;
       page_country_counts := country_counts four_years;
       page_time_data := time_data four_years;
       page_heatmap_data := heatmap_data four_years;
       page_top_countries := top_countries_df four_years |}
  = aggregates_of four_years.
Proof.
  apply (@aggregates_over_full_store
           (mkSelection "Movie" "All" (2000, 2020)%Z) four_years).
  reflexivity.
Defined.

(** ** Top-N *)

(** The tie-break of C3: a kept entry precedes, by label, every dropped
    entry with the same count. *)
Definition ties_by_ascending_key (n : Z) (s : Series string) : Prop :=
  forall a e, In a (nlargest n s) -> In e s -> ~ In e (nlargest n s) ->
              snd a = snd e -> String.ltb (fst a) (fst e) = true.

(** C3, as stated, fails: in a column where "UK" is met before "IN" and
    both occur twice, the top 2 keeps "UK" and drops "IN"; likewise for the
    counts US:10, UK:7, IN:7, FR:3 listed in this order. *)
Lemma nlargest_ties_not_by_key :
  nlargest 2 (value_counts tied_countries) = [("US", 3); ("UK", 2)]
  /\ nlargest 2 [("US", 10); ("UK", 7); ("IN", 7); ("FR", 3)]
     = [("US", 10); ("UK", 7)]
  /\ ~ ties_by_ascending_key 2 (value_counts tied_countries).
Proof.
  split; [reflexivity|]. split; [reflexivity|]. intros H.
  specialize (H ("UK", 2) ("IN", 2)).
  assert (E : String.ltb "UK" "IN" = true).
  { apply H; vm_compute; intuition discriminate. }
  vm_compute in E. discriminate.
Qed.

(** C3, amended: for every N >= 0 and every series of counts, the top N
    has at most N entries, each kept count is at least every dropped
    count, and among entries with one and the same count the kept ones
    are those that come first in the series; the top 2 of US:10, IN:7,
    UK:7, FR:3 in this order is US:10, IN:7. *)
Theorem nlargest_top_n (n : Z) (s : Series string) :
  (0 <= n)%Z ->
  (Z.of_nat (List.length (nlargest n s)) <= n)%Z
  /\ (forall a e, In a (nlargest n s) -> In e s -> ~ In e (nlargest n s) ->
                  snd e <= snd a)
  /\ (forall c, exists later,
        filter (has_count c) s = filter (has_count c) (nlargest n s) ++ later)
  /\ nlargest 2 [("US", 10); ("IN", 7); ("UK", 7); ("FR", 3)]
     = [("US", 10); ("IN", 7)].
Proof.
  intros Hn. split; [apply nlargest_length; exact Hn|].
  split; [intros a e; apply nlargest_dominates|].
  split; [intros c; apply nlargest_keep_first | reflexivity].
Qed.

(** The amended C3 at N = 2 on the column with the tie. *)
Lemma nlargest_top_n_witness :
  (0 <= 2)%Z
  /\ (Z.of_nat (List.length (nlargest 2 (value_counts tied_countries))) <= 2)%Z.
Proof.
  split; [lia|].
  apply (@nlargest_top_n 2 (value_counts tied_countries)). lia.
Defined.

(** ** Value counts *)

Lemma filter_nonempty (A : Type) (p : A -> bool) (l : list A) :
  0 < List.length (filter p l) -> exists x, In x l /\ p x = true.
Proof.
  destruct (filter p l) as [|x rest] eqn:E; simpl; [lia|].
  intros _. exists x. apply filter_In. rewrite E. left. reflexivity.
Qed.

(** C4: for every view and grouping field, the counts of the value counts
    add up to at most the number of rows, with equality iff no row lacks
    the field; every reported label is the field of some row, so a row
    without the field is counted under no label. *)
Theorem value_counts_sum (view : DataFrame)
    (field : Row Timestamp -> option string) :
  total (value_counts (map field view)) <= List.length view
  /\ (total (value_counts (map field view)) = List.length view
      <-> forall r, In r view -> field r <> None)
  /\ (forall k c, In (k, c) (value_counts (map field view)) ->
        c = List.length (filter (fun r => eq_mask (field r) k) view)
        /\ exists r, In r view /\ field r = Some k).
Proof.
  rewrite value_counts_total.
  destruct (dropna_length (map field view)) as [Hle Heq].
  rewrite length_map in Hle, Heq.
  split; [exact Hle|]. split.
  - rewrite Heq. split.
    + intros H r Hr. apply H. apply in_map. exact Hr.
    + intros H c Hc. apply in_map_iff in Hc.
      destruct Hc as [r [<- Hr]]. auto.
  - intros k c H. apply value_counts_entries in H. destruct H as [-> Hpos].
    unfold occurrences in *.
    assert (E : filter (fun cell => eq_mask cell k) (map field view)
                = map field (filter (fun r => eq_mask (field r) k) view)).
    { clear. induction view as [|r view IH]; simpl; [reflexivity|].
      destruct (eq_mask (field r) k); simpl; rewrite IH; reflexivity. }
    rewrite E, length_map in Hpos |- *. split; [reflexivity|].
    apply filter_nonempty in Hpos. destruct Hpos as [r [Hr Hk]].
    exists r. split; [exact Hr|]. apply eq_mask_true. exact Hk.
Qed.

(** ** Time buckets *)

(** A dated row that lacks its id. *)
Definition no_id_row : Row Timestamp :=
  {| show_id := None; type := Some "Movie"; country := Some "India";
     release_year := Some 2019%Z;
     date_added := Some (mkTimestamp 2020 1 1) |}.

(** C5, as stated, fails: a view whose only row was added in 2020 and
    lacks its id has one row in the bucket of 2020, yet the yearly counts
    report 0 for that year. *)
Lemma time_data_skips_rows_without_id :
  List.length (filter (added_in 2020) [no_id_row]) = 1
  /\ time_data [no_id_row] = [(2020%Z, 0)].
Proof.
  split; reflexivity.
Qed.

(** C5, amended: for every view, the yearly counts have one entry per
    calendar year in which some row was added, holding the number of rows
    added in that year whose id is present, with the years strictly
    ascending; rows without a date are in no bucket, and dropping them
    beforehand changes nothing; where no row lacks its id, each entry
    holds the number of rows added in its year. *)
Theorem time_data_buckets (view : DataFrame) :
  StronglySorted Z.lt (map fst (time_data view))
  /\ (forall y c,
        In (y, c) (time_data view)
        <-> (exists r, In r view /\ added_in y r = true)
            /\ c = List.length
                     (filter (fun r => added_in y r && present (show_id r)) view))
  /\ time_data view
     = time_data (filter (fun r => present (date_added r)) view)
  /\ ((forall r, In r view -> show_id r <> None) ->
      forall y c, In (y, c) (time_data view)
                  <-> c = List.length (filter (added_in y) view) /\ 0 < c).
Proof.
  destruct (groupby_year_spec view) as [Hs Hr].
  assert (Hcount : forall y,
             List.length (dropna (map (@show_id Timestamp)
                                      (filter (added_in y) view)))
             = List.length
                 (filter (fun r => added_in y r && present (show_id r)) view)).
  { intros y. rewrite dropna_present, filter_filter. reflexivity. }
  assert (Hbucket : forall y, filter (added_in y) view <> []
                              <-> exists r, In r view /\ added_in y r = true).
  { intros y. split.
    - intros Hne. destruct (filter (added_in y) view) as [|r rows] eqn:E;
        [congruence|].
      exists r. apply filter_In. rewrite E. left. reflexivity.
    - intros [r Hin] E. apply filter_In in Hin. rewrite E in Hin. exact Hin. }
  assert (Hentries : forall y c,
             In (y, c) (time_data view)
             <-> (exists r, In r view /\ added_in y r = true)
                 /\ c = List.length
                          (filter (fun r => added_in y r && present (show_id r))
                                  view)).
  { intros y c. unfold time_data, dropna_counts, count_column.
    rewrite in_map_iff. split.
    - intros [[k rows] [E Hin]]. injection E as -> <-.
      apply Hr in Hin. destruct Hin as [-> Hne].
      split; [apply Hbucket; exact Hne | apply Hcount].
    - intros [Hex ->]. exists (y, filter (added_in y) view). split.
      + f_equal. apply Hcount.
      + apply Hr. split; [reflexivity | apply Hbucket; exact Hex]. }
  split; [|split; [exact Hentries | split]].
  - unfold time_data, dropna_counts. rewrite count_column_keys. exact Hs.
  - unfold time_data, dropna_counts.
    rewrite (groupby_dropna Z.compare dt_year view). do 2 f_equal.
    apply filter_ext. intros r. unfold dt_year.
    destruct (date_added r); reflexivity.
  - intros Hid y c. rewrite Hentries.
    assert (E : filter (fun r => added_in y r && present (show_id r)) view
                = filter (added_in y) view).
    { apply filter_ext_in. intros r Hin. specialize (Hid r Hin).
      destruct (show_id r); [apply andb_true_r | congruence]. }
    rewrite E. split.
    + intros [Hex ->]. split; [reflexivity|].
      apply Hbucket in Hex.
      destruct (filter (added_in y) view); [congruence | simpl; lia].
    + intros [-> Hpos]. split; [|reflexivity].
      apply Hbucket. intros E'. rewrite E' in Hpos. simpl in Hpos. lia.
Qed.

(** ** Loading *)

(** C6, as stated, fails: one row whose date is not a date makes the whole
    load raise; no frame comes back, with or without a missing marker. *)
Lemma unparseable_date_aborts_load :
  parse_iso_date "not a date" = None
  /\ load_data parse_iso_date sample_csv <> Raise ValueError
  /\ load_data parse_iso_date broken_csv = Raise ValueError.
Proof.
  split; [reflexivity|]. split; [vm_compute; discriminate | reflexivity].
Qed.

(** C6, amended: a row whose date text cannot be parsed makes the load
    raise; when every date text parses, the load returns the file's rows
    in order, each with an empty date cell as the missing marker and a
    date text as its parsed date, the other fields untouched. *)
Theorem load_data_outcome (parse : string -> option Timestamp) (csv : RawFrame) :
  ((exists raw text, In raw csv /\ date_added raw = Some text
                     /\ parse text = None)
   -> load_data parse csv = Raise ValueError)
  /\ ((forall raw text, In raw csv -> date_added raw = Some text ->
                        parse text <> None)
      -> exists df, load_data parse csv = Ok df
                    /\ Forall2 (loaded_from parse) csv df).
Proof.
  unfold load_data. split.
  - intros [raw [text [Hin [Hd Hbad]]]].
    rewrite (@to_datetime_raises parse (map (@date_added string) csv));
      [reflexivity|].
    exists text. split; [|exact Hbad]. rewrite <- Hd. apply in_map. exact Hin.
  - intros H.
    destruct (@to_datetime_ok parse (map (@date_added string) csv))
      as [col [-> HF]].
    + intros text Hin. apply in_map_iff in Hin.
      destruct Hin as [raw [Hd Hin]]. eauto.
    + eexists. split; [reflexivity|].
      apply assign_date_added_spec. exact HF.
Qed.

(** ** Edge cases of the filter *)

(** C7 on the code: with an empty store the script raises at the slider
    bounds of line 22, before any filter is applied; the filter block by
    itself would map the empty store to the empty view. *)
Theorem script_raises_on_empty_store (sel : Selection) :
  slider_bounds [] = Raise ValueError
  /\ script sel [] = Raise ValueError
  /\ apply_filters sel [] = [].
Proof.
  split; [reflexivity|]. split; [reflexivity | apply apply_filters_empty].
Qed.

(** ** Identity law *)

(** C8, as stated, fails: with both selectors on "All" and the range set
    to the bounds of the store, a row without release year is dropped. *)
Lemma wildcard_drops_rows_without_year :
  slider_bounds (four_years ++ [no_year_row]) = Ok (2014, 2017)%Z
  /\ apply_filters (mkSelection "All" "All" (2014, 2017)%Z)
                   (four_years ++ [no_year_row])
     = four_years
  /\ four_years <> four_years ++ [no_year_row].
Proof.
  split; [reflexivity|]. split; [reflexivity | discriminate].
Qed.

(** C8, amended: with both selectors on "All" and a range that spans every
    release year of the store, the view is the store without the rows
    that have no release year; it equals the full store iff every row has
    one. *)
Theorem wildcard_keeps_rows_with_year (df : DataFrame) (lo hi : Z) :
  (forall r y, In r df -> release_year r = Some y -> (lo <= y <= hi)%Z) ->
  apply_filters (mkSelection "All" "All" (lo, hi)) df
  = filter (fun r => match release_year r with
                     | Some _ => true
                     | None => false
                     end) df
  /\ (apply_filters (mkSelection "All" "All" (lo, hi)) df = df
      <-> forall r, In r df -> release_year r <> None).
Proof.
  intros Hspan.
  assert (E : apply_filters (mkSelection "All" "All" (lo, hi)) df
              = filter (fun r => match release_year r with
                                 | Some _ => true
                                 | None => false
                                 end) df).
  { rewrite apply_filters_filter. apply filter_ext_in. intros r Hr.
    unfold satisfiesb. simpl.
    destruct (release_year r) as [y|] eqn:Ey; simpl; [|reflexivity].
    destruct (Hspan r y Hr Ey) as [H1 H2].
    apply andb_true_iff. split; apply Z.leb_le; assumption. }
  split; [exact E|]. rewrite E.
  etransitivity; [apply filter_id_iff|]. split.
  - intros H r Hr. specialize (H r Hr).
    destruct (release_year r); [discriminate | discriminate].
  - intros H r Hr. specialize (H r Hr).
    destruct (release_year r); [reflexivity | congruence].
Qed.

(** The amended C8 on the sample frame, where every row has a year. *)
Lemma wildcard_keeps_rows_with_year_witness :
  apply_filters (mkSelection "All" "All" (2014, 2017)%Z) four_years = four_years.
Proof.
  apply (@wildcard_keeps_rows_with_year four_years 2014 2017).
  - simpl. intros r y Hr Hy.
    repeat (destruct Hr as [<-|Hr]; [injection Hy as <-; lia|]). destruct Hr.
  - simpl. intros r Hr.
    repeat (destruct Hr as [<-|Hr]; [discriminate|]). destruct Hr.
Defined.

(** ** Frame *)

(** C9: from any environment in which [df] names a frame, any sequence of
    runs of the filter block succeeds, leaves [df] naming the same object
    and every object of the store as it was, and the frame left in
    [filtered_df] is the filter of the store by the last selection alone,
    whatever the runs before it were. *)
Theorem rerun_preserves_store (sels : list Selection) (e : Env) (d : DataFrame) :
  deref (heap e) (var_df e) = Some d ->
  exists e',
    rerun sels e = Some e'
    /\ var_df e' = var_df e
    /\ (forall r x, deref (heap e) r = Some x -> deref (heap e') r = Some x)
    /\ (forall before sel, sels = before ++ [sel] ->
          deref (heap e') (var_filtered_df e') = Some (apply_filters sel d)).
Proof.
  revert e. induction sels as [|s rest IH]; intros e Hd; simpl.
  - exists e. repeat split; auto.
    intros before sel H. destruct before; discriminate.
  - destruct (filter_block_spec s e Hd) as [e1 [-> [X1 D1]]]. simpl.
    assert (Hd1 : deref (heap e1) (var_df e1) = Some d).
    { pose proof (@extends_deref _ _ _ _ X1 Hd) as Hd'.
      destruct X1 as [_ Hv]. rewrite Hv. exact Hd'. }
    destruct (IH e1 Hd1) as [e' [Hrun [Hv [Hold Hlast]]]].
    exists e'. split; [exact Hrun|].
    split; [destruct X1 as [_ Hv1]; congruence|].
    split.
    + intros r x Hr. apply Hold. apply (@extends_deref _ _ _ _ X1 Hr).
    + intros before sel Hsplit. destruct before as [|b before].
      * simpl in Hsplit. injection Hsplit as -> ->.
        simpl in Hrun. injection Hrun as <-. exact D1.
      * simpl in Hsplit. injection Hsplit as -> ->.
        apply (Hlast before sel). reflexivity.
Qed.

(** C9 on two runs over a store holding the sample frame. *)
Lemma rerun_preserves_store_witness :
  exists e',
    rerun [mkSelection "Movie" "All" (2000, 2020)%Z;
           mkSelection "All" "Japan" (2015, 2017)%Z]
          {| heap := [four_years]; var_df := 0; var_filtered_df := 0 |}
    = Some e'
    /\ var_df e' = 0.
Proof.
  destruct (@rerun_preserves_store
              [mkSelection "Movie" "All" (2000, 2020)%Z;
               mkSelection "All" "Japan" (2015, 2017)%Z]
              {| heap := [four_years]; var_df := 0; var_filtered_df := 0 |}
              four_years eq_refl) as [e' [H1 [H2 _]]].
  exists e'. split; [exact H1 | exact H2].
Defined.

(** ** Donut chart *)



(** * Further properties of the script *)

(** ** Composing filters *)

Lemma satisfiesb_range (sel : Selection) (r : Row Timestamp) :
  satisfiesb sel r = true ->
  ge_mask (release_year r) (fst (selected_year sel))
  && le_mask (release_year r) (snd (selected_year sel)) = true.
Proof.
  unfold satisfiesb. rewrite !andb_true_iff. tauto.
Qed.

(** X1: filtering a filtered view keeps the rows that meet both
    selections, whichever is applied first; filtering twice by the same
    selection changes nothing. *)
Theorem apply_filters_compose (a b : Selection) (df : DataFrame) :
  apply_filters a (apply_filters b df) = apply_filters b (apply_filters a df)
  /\ (forall r, In r (apply_filters a (apply_filters b df))
                <-> In r df /\ satisfies a r /\ satisfies b r)
  /\ apply_filters a (apply_filters a df) = apply_filters a df.
Proof.
  rewrite !apply_filters_filter, !filter_filter. split; [|split].
  - apply filter_ext. intros r. apply andb_comm.
  - intros r. rewrite filter_In, andb_true_iff, !satisfiesb_spec. tauto.
  - apply filter_ext. intros r. destruct (satisfiesb a r); reflexivity.
Qed.

(** X2: a year range whose upper end lies below its lower end is not
    refused; it selects no row. *)
Theorem inverted_range_selects_nothing (sel : Selection) (df : DataFrame) :
  (snd (selected_year sel) < fst (selected_year sel))%Z ->
  apply_filters sel df = [].
Proof.
  intros Hinv. apply apply_filters_no_match. intros r _ [_ [_ [y [_ Hy]]]]. lia.
Qed.

(** An inverted range on the sample frame. *)
Lemma inverted_range_selects_nothing_witness :
  apply_filters (mkSelection "All" "All" (2017, 2014)%Z) four_years = [].
Proof.
  apply (@inverted_range_selects_nothing
           (mkSelection "All" "All" (2017, 2014)%Z) four_years).
  simpl. lia.
Defined.

(** X3: with the two selectors unchanged, the view of a narrower year
    range is the narrower filter applied to the view of the wider range,
    and each of its rows is a row of the wider view. *)
Theorem narrower_range_refines (kind place : string) (lo hi lo' hi' : Z)
    (df : DataFrame) :
  (lo' <= lo)%Z -> (hi <= hi')%Z ->
  apply_filters (mkSelection kind place (lo, hi)) df
  = apply_filters (mkSelection kind place (lo, hi))
                  (apply_filters (mkSelection kind place (lo', hi')) df)
  /\ forall r, In r (apply_filters (mkSelection kind place (lo, hi)) df) ->
               In r (apply_filters (mkSelection kind place (lo', hi')) df).
Proof.
  intros Hlo Hhi.
  assert (Himp : forall r,
             satisfiesb (mkSelection kind place (lo, hi)) r = true ->
             satisfiesb (mkSelection kind place (lo', hi')) r = true).
  { intros r. rewrite !satisfiesb_spec. unfold satisfies, in_range. simpl.
    intros [H1 [H2 [y [Hy Hr]]]]. repeat split; auto. exists y. split; [auto | lia]. }
  rewrite !apply_filters_filter, filter_filter. split.
  - apply filter_ext. intros r.
    destruct (satisfiesb (mkSelection kind place (lo, hi)) r) eqn:E.
    + rewrite (Himp r E). reflexivity.
    + rewrite andb_false_r. reflexivity.
  - intros r. rewrite !filter_In. intros [H1 H2]. auto.
Qed.

(** Narrowing 2014-2017 to 2015-2016 on the sample frame. *)
Lemma narrower_range_refines_witness :
  apply_filters (mkSelection "All" "All" (2015, 2016)%Z) four_years
  = apply_filters (mkSelection "All" "All" (2015, 2016)%Z)
      (apply_filters (mkSelection "All" "All" (2014, 2017)%Z) four_years).
Proof.
  apply (@narrower_range_refines "All" "All" 2015 2016 2014 2017 four_years);
    lia.
Defined.

(** ** The slider bounds *)

Lemma fold_min_In (ys : list Z) (y : Z) : In (fold_left Z.min ys y) (y :: ys).
Proof.
  revert y. induction ys as [|a ys IH]; intros y; simpl; [auto|].
  destruct (IH (Z.min y a)) as [H|H]; [|auto].
  rewrite <- H. destruct (Z.min_spec y a) as [[_ ->]|[_ ->]]; auto.
Qed.

Lemma fold_max_In (ys : list Z) (y : Z) : In (fold_left Z.max ys y) (y :: ys).
Proof.
  revert y. induction ys as [|a ys IH]; intros y; simpl; [auto|].
  destruct (IH (Z.max y a)) as [H|H]; [|auto].
  rewrite <- H. destruct (Z.max_spec y a) as [[_ ->]|[_ ->]]; auto.
Qed.

Lemma In_release_years (df : DataFrame) (y : Z) :
  In y (dropna (map (@release_year Timestamp) df))
  -> exists r, In r df /\ release_year r = Some y.
Proof.
  intros H. apply In_dropna in H. apply in_map_iff in H.
  destruct H as [r [Hy Hr]]. eauto.
Qed.

(** X4: when the bounds of the slider are computed, the lower one is the
    release year of some row, so is the upper one, the lower is at most
    the upper, and every release year of the frame lies between them. *)
Theorem slider_bounds_min_max (df : DataFrame) (lo hi : Z) :
  slider_bounds df = Ok (lo, hi) ->
  (lo <= hi)%Z
  /\ (exists r, In r df /\ release_year r = Some lo)
  /\ (exists r, In r df /\ release_year r = Some hi)
  /\ (forall r y, In r df -> release_year r = Some y -> (lo <= y <= hi)%Z).
Proof.
  intros H.
  assert (Hspan := slider_bounds_span df H).
  unfold slider_bounds, series_min, series_max in H.
  destruct (dropna (map (@release_year Timestamp) df)) as [|y0 ys] eqn:E;
    simpl in H; [discriminate|].
  injection H as Hlo Hhi.
  assert (Hl : exists r, In r df /\ release_year r = Some lo).
  { apply In_release_years. rewrite E, <- Hlo. apply fold_min_In. }
  assert (Hh : exists r, In r df /\ release_year r = Some hi).
  { apply In_release_years. rewrite E, <- Hhi. apply fold_max_In. }
  split; [|auto].
  destruct Hl as [r [Hr Hy]]. destruct (Hspan r lo Hr Hy). lia.
Qed.

(** The bounds of the sample frame are 2014 and 2017. *)
Lemma slider_bounds_min_max_witness :
  slider_bounds four_years = Ok (2014, 2017)%Z
  /\ exists r, In r four_years /\ release_year r = Some 2014%Z.
Proof.
  assert (H : slider_bounds four_years = Ok (2014, 2017)%Z) by reflexivity.
  split; [exact H|].
  destruct (@slider_bounds_min_max four_years 2014 2017 H) as [_ [Hlo _]].
  exact Hlo.
Defined.

Lemma slider_bounds_ok_row (df : DataFrame) (bounds : Z * Z) :
  slider_bounds df = Ok bounds ->
  exists r y, In r df /\ release_year r = Some y.
Proof.
  unfold slider_bounds, series_min, series_max.
  destruct (dropna (map (@release_year Timestamp) df)) as [|y0 ys] eqn:E;
    simpl; [discriminate|]. intros _.
  destruct (@In_release_years df y0) as [r [Hr Hy]];
    [rewrite E; left; reflexivity|].
  eauto.
Qed.

(** X5: the bounds of the slider raise ValueError exactly when no row has
    a release year, the empty frame included; otherwise they are
    computed. *)
Theorem slider_bounds_error (df : DataFrame) :
  (slider_bounds df = Raise ValueError
   <-> forall r, In r df -> release_year r = None)
  /\ ((exists bounds, slider_bounds df = Ok bounds)
      <-> exists r y, In r df /\ release_year r = Some y).
Proof.
  split; [apply slider_bounds_raises|].
  unfold slider_bounds, series_min, series_max.
  destruct (dropna (map (@release_year Timestamp) df)) as [|y0 ys] eqn:E; simpl.
  - split.
    + intros [b Hb]. discriminate.
    + intros [r [y [Hr Hy]]]. exfalso.
      assert (Hin : In y (dropna (map (@release_year Timestamp) df))).
      { apply In_dropna. rewrite <- Hy. apply in_map. exact Hr. }
      rewrite E in Hin. destruct Hin.
  - split; [|eauto]. intros _.
    destruct (@In_release_years df y0) as [r [Hr Hy]]; [rewrite E; left; reflexivity|].
    eauto.
Qed.

(** ** The choropleth's colour range and the whole run *)

Lemma choropleth_range_max_raises (df : DataFrame) :
  choropleth_range_max df = Raise ValueError
  <-> forall r, In r df -> show_id r = None.
Proof.
  unfold choropleth_range_max, py_max.
  destruct (dropna (map (@show_id Timestamp) df)) as [|x rest] eqn:E.
  - split; [|reflexivity]. intros _ r Hr.
    apply (proj1 (dropna_nil_iff _) E). apply in_map. exact Hr.
  - split; [discriminate|]. intros H. exfalso.
    assert (Hnil : dropna (map (@show_id Timestamp) df) = []).
    { apply dropna_nil_iff. intros c Hc. apply in_map_iff in Hc.
      destruct Hc as [r [<- Hr]]. auto. }
    congruence.
Qed.

(** X6: one run of the script produces its page exactly when some row has
    a release year and some row has an id; in every other case, the empty
    frame included, it raises ValueError. *)
Theorem script_outcome (sel : Selection) (df : DataFrame) :
  ((exists page, script sel df = Ok page)
   <-> (exists r, In r df /\ release_year r <> None)
       /\ (exists r, In r df /\ show_id r <> None))
  /\ (script sel df = Raise ValueError
      <-> (forall r, In r df -> release_year r = None)
          \/ (forall r, In r df -> show_id r = None)).
Proof.
  pose proof (slider_bounds_raises df) as Hs.
  pose proof (choropleth_range_max_raises df) as Hc.
  assert (Hse : forall e, slider_bounds df = Raise e -> e = ValueError).
  { unfold slider_bounds, series_min, series_max.
    destruct (dropna (map (@release_year Timestamp) df)); simpl; congruence. }
  assert (Hce : forall e, choropleth_range_max df = Raise e -> e = ValueError).
  { unfold choropleth_range_max, py_max.
    destruct (dropna (map (@show_id Timestamp) df)); congruence. }
  unfold script.
  destruct (slider_bounds df) as [b|e] eqn:Eb; simpl.
  - destruct (choropleth_range_max df) as [m|e] eqn:Em; simpl.
    + assert (Hy : exists r, In r df /\ release_year r <> None).
      { destruct (slider_bounds_ok_row df Eb) as [r [y [Hr Hy]]].
        exists r. split; [exact Hr | congruence]. }
      assert (Hi : exists r, In r df /\ show_id r <> None).
      { unfold choropleth_range_max, py_max in Em.
        destruct (dropna (map (@show_id Timestamp) df)) as [|x rest] eqn:E;
          [discriminate|].
        assert (Hin : In x (dropna (map (@show_id Timestamp) df)))
          by (rewrite E; left; reflexivity).
        apply In_dropna in Hin. apply in_map_iff in Hin.
        destruct Hin as [r [Hx Hr]]. exists r. split; [exact Hr | congruence]. }
      split.
      * split; [intros _; auto | intros _; eauto].
      * split; [discriminate|]. intros [H|H].
        -- destruct Hy as [r [Hr Hy]]. elim Hy. auto.
        -- destruct Hi as [r [Hr Hi]]. elim Hi. auto.
    + rewrite (Hce e eq_refl) in *. split.
      * split; [intros [p Hp]; discriminate|].
        intros [_ [r [Hr Hi]]]. elim Hi. apply (proj1 Hc); auto.
      * split; [intros _; right; apply Hc; reflexivity | reflexivity].
  - rewrite (Hse e eq_refl) in *. split.
    + split; [intros [p Hp]; discriminate|].
      intros [[r [Hr Hy]] _]. elim Hy. apply (proj1 Hs); auto.
    + split; [intros _; left; apply Hs; reflexivity | reflexivity].
Qed.

(** ** Value counts: order and ties *)

Lemma occurrences_perm (k : string) (col col' : list (option string)) :
  Permutation col col' -> occurrences k col = occurrences k col'.
Proof.
  unfold occurrences. induction 1 as [|c l l' _ IH|c c' l|l l' l'' _ IH1 _ IH2];
    simpl.
  - reflexivity.
  - destruct (eq_mask c k); simpl; congruence.
  - destruct (eq_mask c k), (eq_mask c' k); reflexivity.
  - congruence.
Qed.

Lemma count_of_absent (k : string) (s : Series string) :
  ~ In k (map fst s) -> count_of k s = 0.
Proof.
  induction s as [|[k' c] s IH]; simpl; intros H; [reflexivity|].
  destruct (String.eqb_spec k k') as [->|_]; [|auto].
  exfalso. auto.
Qed.

Lemma tied_labels (c : nat) (s : Series string) :
  NoDup (map fst s) ->
  map fst (filter (has_count c) s)
  = filter (fun k => Nat.eqb (count_of k s) c) (map fst s).
Proof.
  induction s as [|[k n] s IH]; simpl; intros Hn; [reflexivity|].
  inversion Hn as [|? ? Hk Hn']; subst.
  rewrite String.eqb_refl. unfold has_count at 1. simpl.
  assert (E : filter (fun k0 => Nat.eqb (if String.eqb k0 k then n
                                         else count_of k0 s) c) (map fst s)
              = filter (fun k0 => Nat.eqb (count_of k0 s) c) (map fst s)).
  { apply filter_ext_in. intros k0 Hk0.
    destruct (String.eqb_spec k0 k) as [->|_]; [contradiction | reflexivity]. }
  rewrite E. destruct (Nat.eqb n c); simpl; rewrite IH by exact Hn'; reflexivity.
Qed.

Lemma tally_step_keys (acc : Series string) (k : string) :
  map fst (bump k acc)
  = if existsb (String.eqb k) (map fst acc)
    then map fst acc
    else map fst acc ++ [k].
Proof.
  induction acc as [|[k' c] acc IH]; simpl; [reflexivity|].
  destruct (String.eqb k k'); simpl; [reflexivity|].
  rewrite IH. destruct (existsb (String.eqb k) (map fst acc)); reflexivity.
Qed.

Lemma unique_fold_tally (col : list (option string)) (acc : Series string) :
  fold_left (fun seen x => if existsb (String.eqb x) seen
                           then seen
                           else seen ++ [x]) (dropna col) (map fst acc)
  = map fst (fold_left tally_step col acc).
Proof.
  revert acc. induction col as [|[k|] col IH]; intros acc; simpl.
  - reflexivity.
  - rewrite <- IH, tally_step_keys. reflexivity.
  - apply IH.
Qed.

(** The distinct values of a column are the labels of its tally. *)
Lemma unique_tally (col : list (option string)) :
  unique (dropna col) = map fst (tally col).
Proof.
  unfold unique. rewrite tally_unfold. apply (unique_fold_tally col []).
Qed.

Lemma tally_keys_NoDup (col : list (option string)) :
  NoDup (map fst (tally col)).
Proof.
  rewrite tally_unfold.
  apply (@fold_tally_invariant col [] (NoDup_nil _) (Forall_nil _)).
Qed.

Lemma count_of_tally (k : string) (col : list (option string)) :
  count_of k (tally col) = occurrences k col.
Proof.
  rewrite tally_unfold, count_of_fold_tally. reflexivity.
Qed.

Lemma occurrences_positive (k : string) (col : list (option string)) :
  0 < occurrences k col <-> In (Some k) col.
Proof.
  unfold occurrences. split.
  - intros H. apply filter_nonempty in H. destruct H as [cell [Hin Hk]].
    apply eq_mask_true in Hk. subst cell. exact Hin.
  - intros H.
    assert (Hin : In (Some k) (filter (fun cell => eq_mask cell k) col)).
    { apply filter_In. split; [exact H | apply eq_mask_true; reflexivity]. }
    destruct (filter (fun cell => eq_mask cell k) col); [destruct Hin | simpl; lia].
Qed.

(** X7: the value counts of a column list each label once, with a count
    of at least 1, most frequent first; labels with one and the same
    count come in the order in which the column first shows them. *)
Theorem value_counts_order (col : list (option string)) :
  NoDup (map fst (value_counts col))
  /\ Forall (fun entry => 1 <= snd entry) (value_counts col)
  /\ Descending (value_counts col)
  /\ forall c, map fst (filter (has_count c) (value_counts col))
               = filter (fun k => Nat.eqb (occurrences k col) c)
                        (unique (dropna col)).
Proof.
  split; [apply value_counts_keys_NoDup|]. split; [|split].
  - apply Forall_forall. intros [k c] H.
    apply value_counts_entries in H. simpl. lia.
  - apply sort_values_desc_sorted.
  - intros c. unfold value_counts. rewrite sort_values_desc_stable.
    rewrite (@tied_labels c _ (tally_keys_NoDup col)), unique_tally.
    apply filter_ext. intros k. rewrite count_of_tally. reflexivity.
Qed.

(** X8: the value counts do not depend on the order of the rows, up to
    the order in which tied labels are listed: a reordered column gives a
    rearrangement of the same entries. *)
Theorem value_counts_reordered (col col' : list (option string)) :
  Permutation col col' ->
  Permutation (value_counts col) (value_counts col').
Proof.
  intros H. apply NoDup_Permutation.
  - apply (NoDup_map_inv fst). apply value_counts_keys_NoDup.
  - apply (NoDup_map_inv fst). apply value_counts_keys_NoDup.
  - intros [k c]. rewrite !value_counts_entries, (occurrences_perm k H).
    reflexivity.
Qed.

(** Swapping two cells of a column with a tie. *)
Lemma value_counts_reordered_witness :
  Permutation (value_counts (map Some ["UK"; "IN"]))
              (value_counts (map Some ["IN"; "UK"])).
Proof.
  apply (@value_counts_reordered (map Some ["UK"; "IN"]) (map Some ["IN"; "UK"])).
  apply perm_swap.
Defined.

(** ** Top-N: edge cases and composition *)

Lemma Descending_firstn (K : Type) (n : nat) (s : Series K) :
  Descending s -> Descending (firstn n s).
Proof.
  unfold Descending. intros H. revert n.
  induction H as [|x s Hs IH Hx]; intros [|n]; simpl; try constructor.
  - apply IH.
  - rewrite Forall_forall in Hx |- *. intros y Hy. apply Hx.
    rewrite <- (firstn_skipn n s). apply in_or_app. left. exact Hy.
Qed.

Lemma nlargest_sorted (K : Type) (n : Z) (s : Series K) :
  Descending (nlargest n s).
Proof.
  unfold nlargest. destruct (n <=? 0)%Z; [constructor|].
  apply Descending_firstn. apply sort_values_desc_sorted.
Qed.

(** X9: the bar chart of the top countries shows the first ten rows of
    the table of countries by title count. *)
Theorem country_counts_prefix (df : DataFrame) :
  country_counts df = firstn 10 (top_countries_df df).
Proof.
  unfold country_counts, top_countries_df, value_counts.
  rewrite nlargest_pos by lia.
  rewrite sort_values_desc_id by apply sort_values_desc_sorted.
  reflexivity.
Qed.

(** X10: taking the top M of a top N is taking the top min(M, N). *)
Theorem nlargest_nlargest (m n : Z) (s : Series string) :
  nlargest m (nlargest n s) = nlargest (Z.min m n) s.
Proof.
  destruct (Z.leb_spec m 0) as [Hm|Hm].
  - rewrite (@nlargest_nonpos _ m) by exact Hm.
    rewrite nlargest_nonpos by lia. reflexivity.
  - destruct (Z.leb_spec n 0) as [Hn|Hn].
    + rewrite (@nlargest_nonpos _ n s) by exact Hn.
      rewrite (@nlargest_nonpos _ (Z.min m n)) by lia.
      rewrite nlargest_pos by exact Hm. simpl. apply firstn_nil.
    + rewrite (@nlargest_pos _ (Z.min m n)) by lia.
      rewrite (@nlargest_pos _ m) by exact Hm.
      rewrite sort_values_desc_id by apply nlargest_sorted.
      rewrite nlargest_pos by exact Hn.
      rewrite firstn_firstn. f_equal. lia.
Qed.

(** X11: a top N with N <= 0, negative N included, is empty and raises
    nothing; with N at least the number of entries it is the whole series
    sorted by descending count; in every case it comes in descending
    count order. *)
Theorem nlargest_edges (n : Z) (s : Series string) :
  ((n <= 0)%Z -> nlargest n s = [])
  /\ ((Z.of_nat (List.length s) <= n)%Z ->
      nlargest n s = sort_values_desc s /\ Permutation s (nlargest n s))
  /\ Descending (nlargest n s).
Proof.
  split; [apply nlargest_nonpos|]. split; [|apply nlargest_sorted].
  intros H. split; [|apply nlargest_all; exact H].
  destruct s as [|x s].
  - unfold nlargest. destruct (n <=? 0)%Z; [reflexivity|].
    simpl. apply firstn_nil.
  - rewrite nlargest_pos by (simpl in H; lia).
    apply firstn_all2.
    rewrite <- (Permutation_length (sort_values_desc_perm (x :: s))). lia.
Qed.

(** ** The select boxes *)

(** The values of a list in order of first appearance: the head, then the
    first appearances of the tail other than the head. *)
Fixpoint first_appearances (l : list string) : list string :=
  match l with
  | [] => []
  | x :: rest =>
      x :: filter (fun y => negb (String.eqb y x)) (first_appearances rest)
  end.

Definition unseen (seen : list string) (y : string) : bool :=
  negb (existsb (String.eqb y) seen).

Lemma unique_from (l seen : list string) :
  fold_left (fun seen x => if existsb (String.eqb x) seen
                           then seen
                           else seen ++ [x]) l seen
  = seen ++ filter (unseen seen) (first_appearances l).
Proof.
  revert seen. induction l as [|x rest IH]; intros seen; simpl.
  - rewrite app_nil_r. reflexivity.
  - destruct (existsb (String.eqb x) seen) eqn:E.
    + rewrite IH. unfold unseen at 2. rewrite E. simpl. f_equal.
      rewrite filter_filter. apply filter_ext. intros y.
      destruct (String.eqb_spec y x) as [->|_]; simpl; [|reflexivity].
      unfold unseen. rewrite E. reflexivity.
    + rewrite IH. unfold unseen at 2. rewrite E. simpl.
      rewrite <- app_assoc. simpl. do 2 f_equal.
      rewrite filter_filter. apply filter_ext. intros y.
      unfold unseen. rewrite existsb_app. simpl. rewrite orb_false_r.
      rewrite negb_orb. apply andb_comm.
Qed.

Lemma unique_first_appearances (l : list string) :
  unique l = first_appearances l.
Proof.
  unfold unique. rewrite unique_from. simpl.
  apply filter_id_iff. reflexivity.
Qed.

(** X12: the type selector offers "All" first and then each type of the
    frame once, in order of first appearance; these are exactly the labels
    of the chart of types, and every one of them is the type of some row. *)
Theorem type_options_spec (df : DataFrame) :
  (exists labels, type_options df = "All" :: labels
                  /\ labels = first_appearances
                                (dropna (map (@type Timestamp) df))
                  /\ NoDup labels
                  /\ Permutation labels (map fst (type_counts df))
                  /\ forall t, In t labels
                               <-> exists r, In r df /\ type r = Some t).
Proof.
  exists (unique (dropna (map (@type Timestamp) df))).
  split; [reflexivity|]. split; [apply unique_first_appearances|].
  rewrite unique_tally.
  split; [apply tally_keys_NoDup|]. split.
  - unfold type_counts, value_counts. apply Permutation_map.
    apply sort_values_desc_perm.
  - intros t. split.
    + intros H.
      assert (Hpos : 0 < occurrences t (map (@type Timestamp) df)).
      { rewrite <- count_of_tally.
        destruct (count_of t (tally (map (@type Timestamp) df))) eqn:E; [|lia].
        exfalso. apply in_map_iff in H. destruct H as [[k c] [Hk Hin]].
        simpl in Hk. subst k.
        pose proof (@count_of_In t c _ (tally_keys_NoDup _) Hin) as Hc.
        assert (Hp : 0 < c).
        { pose proof (@fold_tally_invariant (map (@type Timestamp) df) []
                        (NoDup_nil _) (Forall_nil _)) as [_ Hp].
          rewrite Forall_forall in Hp. apply (Hp (t, c)). exact Hin. }
        lia. }
      apply occurrences_positive in Hpos. apply in_map_iff in Hpos.
      destruct Hpos as [r [Hr Hin]]. eauto.
    + intros [r [Hr Ht]].
      assert (Hpos : 0 < occurrences t (map (@type Timestamp) df)).
      { apply occurrences_positive. rewrite <- Ht. apply in_map. exact Hr. }
      rewrite <- count_of_tally in Hpos. apply In_count_of in Hpos.
      apply in_map_iff. exists (t, count_of t (tally (map (@type Timestamp) df))).
      split; [reflexivity | exact Hpos].
Qed.

(** ** String order *)

Lemma ascii_compare_refl (a : ascii) : Ascii.compare a a = Eq.
Proof. unfold Ascii.compare. apply N.compare_refl. Qed.

Lemma ascii_compare_lt_trans (a b c : ascii) :
  Ascii.compare a b = Lt -> Ascii.compare b c = Lt -> Ascii.compare a c = Lt.
Proof.
  unfold Ascii.compare. rewrite !N.compare_lt_iff. lia.
Qed.

Lemma string_compare_refl (s : string) : String.compare s s = Eq.
Proof.
  induction s as [|a s IH]; simpl; [reflexivity|].
  rewrite ascii_compare_refl. exact IH.
Qed.

Lemma string_compare_eq (s1 s2 : string) : String.compare s1 s2 = Eq <-> s1 = s2.
Proof.
  split; [apply String.compare_eq_iff|]. intros ->. apply string_compare_refl.
Qed.

Lemma string_compare_lt_trans (s1 s2 s3 : string) :
  String.compare s1 s2 = Lt -> String.compare s2 s3 = Lt ->
  String.compare s1 s3 = Lt.
Proof.
  revert s2 s3. induction s1 as [|a s1 IH]; intros [|b s2] [|c s3]; simpl;
    try discriminate; try reflexivity.
  destruct (Ascii.compare a b) eqn:Eab; try discriminate.
  - apply Ascii.compare_eq_iff in Eab. subst b.
    destruct (Ascii.compare a c); try discriminate; [apply IH | reflexivity].
  - intros _. destruct (Ascii.compare b c) eqn:Ebc; try discriminate.
    + apply Ascii.compare_eq_iff in Ebc. subst c. rewrite Eab. reflexivity.
    + rewrite (ascii_compare_lt_trans _ _ _ Eab Ebc). reflexivity.
Qed.

Lemma string_compare_gt_lt (s1 s2 : string) :
  String.compare s1 s2 = Gt -> String.compare s2 s1 = Lt.
Proof.
  intros H. rewrite String.compare_antisym, H. reflexivity.
Qed.

Lemma string_leb_trans_lt (z a b : string) :
  String.leb z a = true -> String.ltb a b = true -> String.leb z b = true.
Proof.
  unfold String.leb, String.ltb.
  destruct (String.compare z a) eqn:Eza; try discriminate; intros _;
    destruct (String.compare a b) eqn:Eab; try discriminate; intros _.
  - apply String.compare_eq_iff in Eza. subst z. rewrite Eab. reflexivity.
  - rewrite (string_compare_lt_trans _ _ _ Eza Eab). reflexivity.
Qed.

Lemma string_max_upper (a b : string) :
  String.leb a (string_max a b) = true /\ String.leb b (string_max a b) = true.
Proof.
  unfold string_max, String.ltb, String.leb.
  destruct (String.compare a b) eqn:E.
  - rewrite string_compare_refl. rewrite String.compare_antisym, E. auto.
  - rewrite E, string_compare_refl. auto.
  - rewrite string_compare_refl. rewrite String.compare_antisym, E. auto.
Qed.

Lemma string_max_mono (z a b : string) :
  String.leb z a = true -> String.leb z (string_max a b) = true.
Proof.
  intros H. unfold string_max. destruct (String.ltb a b) eqn:E; [|exact H].
  apply (string_leb_trans_lt _ _ _ H E).
Qed.

Lemma fold_string_max_mono (rest : list string) (z acc : string) :
  String.leb z acc = true ->
  String.leb z (fold_left string_max rest acc) = true.
Proof.
  revert acc. induction rest as [|b rest IH]; intros acc H; simpl; [exact H|].
  apply IH. apply string_max_mono. exact H.
Qed.

Lemma fold_string_max (rest : list string) (x : string) :
  In (fold_left string_max rest x) (x :: rest)
  /\ forall z, In z (x :: rest) ->
               String.leb z (fold_left string_max rest x) = true.
Proof.
  revert x. induction rest as [|b rest IH]; intros x; simpl.
  - split; [auto|]. intros z [<-|[]].
    unfold String.leb. rewrite string_compare_refl. reflexivity.
  - destruct (IH (string_max x b)) as [Hin Hle]. split.
    + destruct Hin as [Hin|Hin]; [|auto].
      rewrite <- Hin. unfold string_max. destruct (String.ltb x b); auto.
    + intros z [<-|[<-|Hz]].
      * apply fold_string_max_mono. apply string_max_upper.
      * apply fold_string_max_mono. apply string_max_upper.
      * apply Hle. right. exact Hz.
Qed.

(** X13: when the colour range of the choropleth is computed, its upper
    end is the id of some row and no id of the frame is greater; rows
    without id are skipped. *)
Theorem choropleth_range_max_greatest (df : DataFrame) (top : string) :
  choropleth_range_max df = Ok top ->
  (exists r, In r df /\ show_id r = Some top)
  /\ forall r id, In r df -> show_id r = Some id -> String.leb id top = true.
Proof.
  unfold choropleth_range_max, py_max.
  destruct (dropna (map (@show_id Timestamp) df)) as [|x rest] eqn:E;
    [discriminate|].
  intros H. injection H as <-.
  destruct (fold_string_max rest x) as [Hin Hle]. split.
  - rewrite <- E in Hin. apply In_dropna in Hin. apply in_map_iff in Hin.
    destruct Hin as [r [Hid Hr]]. eauto.
  - intros r id Hr Hid. apply Hle. rewrite <- E. apply In_dropna.
    rewrite <- Hid. apply in_map. exact Hr.
Qed.

(** On the sample frame the greatest id is "s4". *)
Lemma choropleth_range_max_greatest_witness :
  exists r, In r four_years /\ show_id r = Some "s4".
Proof.
  apply (@choropleth_range_max_greatest four_years "s4"). reflexivity.
Defined.

(** ** Grouping: totals *)

Section GroupTotals.

Variable K : Type.
Variable cmp : K -> K -> comparison.
Hypothesis cmp_eq : forall a b, cmp a b = Eq <-> a = b.

Variable A : Type.
Variable column : Row Timestamp -> option A.

(** The counts filed under the keys that pass [q], added up. *)
Definition subtotal (q : K -> bool) (s : Series K) : nat :=
  total (filter (fun entry => q (fst entry)) s).

Lemma subtotal_add (q : K -> bool) (k : K) (r : Row Timestamp) (g : Groups K) :
  subtotal q (count_column column (add_to_group cmp k r g))
  = subtotal q (count_column column g)
    + (if q k && present (column r) then 1 else 0).
Proof.
  unfold subtotal. induction g as [|[k' rows] g IH]; simpl.
  - destruct (q k), (column r); reflexivity.
  - destruct (cmp k k') eqn:E; simpl.
    + apply cmp_eq in E. subst k'.
      rewrite map_app, dropna_app, length_app. simpl map.
      destruct (q k), (column r); simpl; lia.
    + destruct (q k), (q k'), (column r); simpl; lia.
    + destruct (q k'); simpl; rewrite IH; lia.
Qed.

Variable key : Row Timestamp -> option K.

Lemma subtotal_fold (q : K -> bool) (df : DataFrame) (acc : Groups K) :
  subtotal q (count_column column (fold_left (group_step cmp key) df acc))
  = subtotal q (count_column column acc)
    + List.length
        (filter (fun r => match key r with
                          | Some k => q k && present (column r)
                          | None => false
                          end) df).
Proof.
  revert acc. induction df as [|r df IH]; intros acc; [simpl; lia|].
  change (fold_left (group_step cmp key) (r :: df) acc)
    with (fold_left (group_step cmp key) df (group_step cmp key acc r)).
  rewrite IH. unfold group_step. simpl filter.
  destruct (key r) as [k|]; [|reflexivity].
  rewrite subtotal_add. destruct (q k && present (column r)); simpl; lia.
Qed.

Lemma subtotal_groupby (q : K -> bool) (df : DataFrame) :
  subtotal q (count_column column (groupby cmp key df))
  = List.length
      (filter (fun r => match key r with
                        | Some k => q k && present (column r)
                        | None => false
                        end) df).
Proof.
  rewrite groupby_unfold, subtotal_fold. reflexivity.
Qed.

End GroupTotals.

Lemma subtotal_all (K : Type) (s : Series K) :
  subtotal (fun _ => true) s = total s.
Proof.
  unfold subtotal. f_equal. induction s as [|x s IH]; simpl; congruence.
Qed.

Lemma size_count_column (K : Type) (g : Groups K) :
  size g = count_column (fun _ : Row Timestamp => Some tt) g.
Proof.
  unfold size, count_column. apply map_ext. intros [k rows].
  rewrite dropna_present, (proj2 (filter_id_iff _ rows)); [reflexivity|].
  reflexivity.
Qed.

Lemma heatmap_data_size (df : DataFrame) :
  heatmap_data df = size (groupby cmp_year_country year_country df).
Proof.
  unfold heatmap_data.
  rewrite <- (map_id (size (groupby cmp_year_country year_country df))) at 2.
  apply map_ext. intros [[y c] n]. reflexivity.
Qed.

Lemma cmp_year_country_eq (a b : Z * string) :
  cmp_year_country a b = Eq <-> a = b.
Proof.
  unfold cmp_year_country. destruct a as [y c], b as [y' c']. simpl.
  destruct (Z.compare_spec y y') as [->|H|H].
  - rewrite string_compare_eq. split; congruence.
  - split; [discriminate | intros E; injection E as -> _; lia].
  - split; [discriminate | intros E; injection E as -> _; lia].
Qed.

(** X14: the yearly counts add up to the number of rows that have both a
    date and an id; the title counts of the heatmap add up to the number
    of rows that have both a release year and a country; and for every
    year the title counts of the heatmap rows of that year add up to the
    number of rows released in that year whose country is present. *)
Theorem grouped_totals (df : DataFrame) :
  total (time_data df)
  = List.length (filter (fun r => present (date_added r) && present (show_id r)) df)
  /\ total (heatmap_data df)
     = List.length (filter (fun r => present (release_year r)
                                     && present (country r)) df)
  /\ forall y,
       subtotal (fun k => (fst k =? y)%Z) (heatmap_data df)
       = List.length (filter (fun r => ge_mask (release_year r) y
                                       && le_mask (release_year r) y
                                       && present (country r)) df).
Proof.
  split; [|split].
  - unfold time_data, dropna_counts.
    rewrite <- subtotal_all, (@subtotal_groupby _ Z.compare Z.compare_eq_iff).
    f_equal. apply filter_ext. intros r. unfold dt_year.
    destruct (date_added r); reflexivity.
  - rewrite heatmap_data_size, size_count_column.
    rewrite <- subtotal_all, (@subtotal_groupby _ cmp_year_country cmp_year_country_eq).
    f_equal. apply filter_ext. intros r. unfold year_country.
    destruct (release_year r), (country r); reflexivity.
  - intros y. rewrite heatmap_data_size, size_count_column.
    rewrite (@subtotal_groupby _ cmp_year_country cmp_year_country_eq).
    f_equal. apply filter_ext. intros r. unfold year_country.
    destruct (release_year r) as [y'|], (country r); simpl;
      try reflexivity;
      destruct (Z.eqb_spec y' y), (Z.leb_spec y y'), (Z.leb_spec y' y);
      simpl; try reflexivity; lia.
Qed.

(** ** The cells of the heatmap *)

(** Rows released in year [y] in country [c]. *)
Definition in_cell (y : Z) (c : string) (r : Row Timestamp) : bool :=
  match release_year r with
  | Some y' => (y' =? y)%Z && eq_mask (country r) c
  | None => false
  end.

(** Year first, then country. *)
Definition year_country_lt (a b : Z * string) : Prop :=
  (fst a < fst b)%Z \/ (fst a = fst b /\ String.ltb (snd a) (snd b) = true).

Lemma cmp_year_country_lt (a b : Z * string) :
  cmp_year_country a b = Lt <-> year_country_lt a b.
Proof.
  unfold cmp_year_country, year_country_lt, String.ltb.
  destruct a as [y c], b as [y' c']. simpl.
  destruct (Z.compare_spec y y') as [->|H|H].
  - destruct (String.compare c c'); split; auto; try discriminate;
      intros [H|[_ H]]; try lia; discriminate.
  - split; auto.
  - split; [discriminate|]. intros [H'|[H' _]]; lia.
Qed.

Lemma cmp_year_country_gt (a b : Z * string) :
  cmp_year_country a b = Gt -> cmp_year_country b a = Lt.
Proof.
  unfold cmp_year_country. destruct a as [y c], b as [y' c']. simpl.
  destruct (Z.compare_spec y y') as [->|H|H]; intros E.
  - rewrite Z.compare_refl. apply string_compare_gt_lt. exact E.
  - discriminate.
  - destruct (Z.compare_spec y' y); try lia. reflexivity.
Qed.

Lemma cmp_year_country_trans (a b c : Z * string) :
  cmp_year_country a b = Lt -> cmp_year_country b c = Lt ->
  cmp_year_country a c = Lt.
Proof.
  rewrite !cmp_year_country_lt. unfold year_country_lt, String.ltb.
  destruct a as [y1 c1], b as [y2 c2], c as [y3 c3]. simpl.
  intros [H1|[H1 S1]] [H2|[H2 S2]]; try (left; lia).
  right. split; [lia|].
  destruct (String.compare c1 c2) eqn:E1; try discriminate.
  destruct (String.compare c2 c3) eqn:E2; try discriminate.
  rewrite (string_compare_lt_trans _ _ _ E1 E2). reflexivity.
Qed.

Lemma StronglySorted_weaken (A : Type) (R R' : A -> A -> Prop) (l : list A) :
  (forall a b, R a b -> R' a b) -> StronglySorted R l -> StronglySorted R' l.
Proof.
  intros H. induction 1 as [|x l Hs IH Hx]; constructor; [exact IH|].
  rewrite Forall_forall in Hx |- *. auto.
Qed.

Lemma keyed_in_cell (y : Z) (c : string) (r : Row Timestamp) :
  keyed cmp_year_country year_country (y, c) r = in_cell y c r.
Proof.
  unfold keyed, in_cell, year_country, eq_mask.
  destruct (release_year r) as [y'|]; [|reflexivity].
  destruct (country r) as [c'|]; [|rewrite andb_false_r; reflexivity].
  destruct (cmp_year_country (y, c) (y', c')) eqn:E.
  - apply cmp_year_country_eq in E. injection E as <- <-.
    rewrite Z.eqb_refl, String.eqb_refl. reflexivity.
  - destruct (Z.eqb_spec y' y), (String.eqb_spec c' c); try reflexivity.
    subst. rewrite (proj2 (cmp_year_country_eq _ _) eq_refl) in E. discriminate.
  - destruct (Z.eqb_spec y' y), (String.eqb_spec c' c); try reflexivity.
    subst. rewrite (proj2 (cmp_year_country_eq _ _) eq_refl) in E. discriminate.
Qed.

(** X15: the heatmap data has one row per pair of release year and
    country borne by some row of the frame, holding the number of rows
    with that pair; the pairs come in ascending order, year first, then
    country; rows lacking the year or the country are in no cell. *)
Theorem heatmap_cells (df : DataFrame) :
  StronglySorted year_country_lt (map fst (heatmap_data df))
  /\ forall y c n,
       In (y, c, n) (heatmap_data df)
       <-> n = List.length (filter (in_cell y c) df) /\ 1 <= n.
Proof.
  rewrite heatmap_data_size.
  destruct (@groupby_spec _ cmp_year_country cmp_year_country_eq
              cmp_year_country_gt cmp_year_country_trans year_country df)
    as [Hs Hr].
  split.
  - unfold size. rewrite map_map.
    apply (@StronglySorted_weaken _ (klt cmp_year_country)).
    + intros a b. apply cmp_year_country_lt.
    + erewrite map_ext; [exact Hs|]. intros [k rows]. reflexivity.
  - intros y c n. unfold size. rewrite in_map_iff. split.
    + intros [[k rows] [E Hin]]. injection E as -> <-.
      apply Hr in Hin. destruct Hin as [-> Hne].
      rewrite (filter_ext _ _ (keyed_in_cell y c)) in Hne |- *.
      split; [reflexivity|].
      destruct (filter (in_cell y c) df); [congruence | simpl; lia].
    + intros [-> Hpos]. exists ((y, c), filter (in_cell y c) df).
      split; [reflexivity|]. apply Hr.
      rewrite (filter_ext _ _ (keyed_in_cell y c)). split; [reflexivity|].
      intros E. rewrite E in Hpos. simpl in Hpos. lia.
Qed.

(** ** The donut chart: bounds *)

Lemma dict_get_In (V : Type) (d : list (string * V)) (key : string) (default : V) :
  In (dict_get d key default) (default :: map snd d).
Proof.
  induction d as [|[k v] d IH]; simpl; [auto|].
  destruct (String.eqb key k); [auto|].
  destruct IH as [H|H]; auto.
Qed.

(** X16: the donut does not clamp its input: its two arc weights both lie
    between 0 and 100 exactly when the percentage does; and its palette
    is always one of the four listed pairs of colours. *)
Theorem make_donut_bounds (input_response : Z) (input_text input_color : string) :
  (Forall (fun w => 0 <= w <= 100)%Z
          (arc_weights (source (make_donut input_response input_text input_color)))
   <-> (0 <= input_response <= 100)%Z)
  /\ In (chart_color (make_donut input_response input_text input_color))
        (map snd chart_colors)
  /\ List.length (chart_color (make_donut input_response input_text input_color))
     = 2.
Proof.
  split.
  - change (arc_weights (source (make_donut input_response input_text input_color)))
      with [100 - input_response; input_response]%Z.
    split.
    + intros H. inversion H as [|? ? H1 H2]; subst.
      inversion H2 as [|? ? H3 _]; subst. lia.
    + intros H. repeat constructor; lia.
  - rewrite make_donut_chart_color.
    assert (Hin : In (dict_get chart_colors input_color ["#29b5e8"; "#155F7A"])
                     (map snd chart_colors)).
    { destruct (dict_get_In chart_colors input_color ["#29b5e8"; "#155F7A"])
        as [H|H]; [rewrite <- H; left; reflexivity | exact H]. }
    split; [exact Hin|].
    generalize dependent (dict_get chart_colors input_color
                                   ["#29b5e8"; "#155F7A"]).
    intros palette Hin. simpl in Hin.
    destruct Hin as [H|[H|[H|[H|[]]]]]; rewrite <- H; reflexivity.
Qed.

(** ** Loading keeps the other columns *)

Lemma to_datetime_length (parse : string -> option Timestamp)
    (col : list (option string)) (parsed : list (option Timestamp)) :
  to_datetime parse col = Ok parsed -> List.length parsed = List.length col.
Proof.
  revert parsed. induction col as [|[text|] col IH]; intros parsed; simpl.
  - intros H. injection H as <-. reflexivity.
  - destruct (parse text); [|discriminate].
    destruct (to_datetime parse col) as [rest|]; simpl; [|discriminate].
    intros H. injection H as <-. simpl. f_equal. apply IH. reflexivity.
  - destruct (to_datetime parse col) as [rest|]; simpl; [|discriminate].
    intros H. injection H as <-. simpl. f_equal. apply IH. reflexivity.
Qed.

Lemma assign_date_added_columns (csv : RawFrame) (col : list (option Timestamp)) :
  List.length col = List.length csv ->
  map (@show_id Timestamp) (assign_date_added csv col) = map (@show_id string) csv
  /\ map (@type Timestamp) (assign_date_added csv col) = map (@type string) csv
  /\ map (@country Timestamp) (assign_date_added csv col) = map (@country string) csv
  /\ map (@release_year Timestamp) (assign_date_added csv col)
     = map (@release_year string) csv
  /\ map (@date_added Timestamp) (assign_date_added csv col) = col.
Proof.
  revert col. induction csv as [|raw csv IH]; intros [|c col] H;
    simpl in *; try discriminate; [repeat split|].
  injection H as H. destruct (IH col H) as [H1 [H2 [H3 [H4 H5]]]].
  repeat split; f_equal; assumption.
Qed.

(** X17: when the load succeeds, the frame has the file's rows in number
    and order, with the id, type, country and release year of every row
    as the file has them; only the date column is replaced. *)
Theorem load_data_keeps_columns (parse : string -> option Timestamp)
    (csv : RawFrame) (df : DataFrame) :
  load_data parse csv = Ok df ->
  List.length df = List.length csv
  /\ map (@show_id Timestamp) df = map (@show_id string) csv
  /\ map (@type Timestamp) df = map (@type string) csv
  /\ map (@country Timestamp) df = map (@country string) csv
  /\ map (@release_year Timestamp) df = map (@release_year string) csv.
Proof.
  unfold load_data.
  destruct (to_datetime parse (map (@date_added string) csv)) as [col|] eqn:E;
    simpl; [|discriminate].
  intros H. injection H as <-.
  apply to_datetime_length in E. rewrite length_map in E.
  destruct (@assign_date_added_columns csv col E) as [H1 [H2 [H3 [H4 _]]]].
  split; [|auto]. rewrite <- (length_map (@show_id Timestamp)), H1.
  apply length_map.
Qed.

(** Loading the sample file with the ISO parser. *)
Lemma load_data_keeps_columns_witness :
  exists df, load_data parse_iso_date sample_csv = Ok df
             /\ List.length df = List.length sample_csv.
Proof.
  assert (H : load_data parse_iso_date sample_csv
              = Ok (assign_date_added sample_csv
                      [Some (mkTimestamp 2021 9 25); None]))
    by reflexivity.
  eexists. split; [exact H|].
  destruct (@load_data_keeps_columns _ _ _ H) as [Hlen _]. exact Hlen.
Defined.

(** ** The filter block allocates *)

Lemma stmt_copy_fresh (e e1 : Env) :
  stmt_copy e = Some e1 ->
  var_df e < List.length (heap e)
  /\ var_df e1 = var_df e
  /\ var_filtered_df e1 = List.length (heap e)
  /\ List.length (heap e1) = S (List.length (heap e)).
Proof.
  unfold stmt_copy. destruct (deref (heap e) (var_df e)) as [d|] eqn:E;
    [|discriminate].
  simpl. intros H. injection H as <-. simpl.
  rewrite length_app. simpl. repeat split; try lia.
  apply nth_error_Some. unfold deref in E. congruence.
Qed.

Lemma stmt_index_fresh (mask : Row Timestamp -> bool) (e e1 : Env) :
  stmt_index mask e = Some e1 ->
  var_df e1 = var_df e
  /\ var_filtered_df e1 = List.length (heap e)
  /\ List.length (heap e1) = S (List.length (heap e)).
Proof.
  unfold stmt_index. destruct (deref (heap e) (var_filtered_df e)) as [d|];
    [|discriminate].
  simpl. intros H. injection H as <-. simpl.
  rewrite length_app. simpl. repeat split; lia.
Qed.

Lemma guarded_index_fresh (guard : bool) (mask : Row Timestamp -> bool)
    (e e1 : Env) :
  (if guard then stmt_index mask e else Some e) = Some e1 ->
  var_df e1 = var_df e
  /\ List.length (heap e) <= List.length (heap e1) <= S (List.length (heap e)).
Proof.
  destruct guard.
  - intros H. apply stmt_index_fresh in H. lia.
  - intros H. injection H as <-. lia.
Qed.

(** X18: a run of the filter block that completes leaves in
    [filtered_df] a frame allocated by this run, never the frame [df]
    names, even when both selectors are "All"; it allocates at least two
    and at most four frames. *)
Theorem filter_block_result_fresh (sel : Selection) (e e' : Env) :
  filter_block sel e = Some e' ->
  var_df e' = var_df e
  /\ var_filtered_df e' <> var_df e'
  /\ List.length (heap e) <= var_filtered_df e'
  /\ List.length (heap e) + 2 <= List.length (heap e')
     <= List.length (heap e) + 4.
Proof.
  unfold filter_block.
  destruct (stmt_copy e) as [e1|] eqn:E1; simpl; [|discriminate].
  destruct (if negb (String.eqb (selected_type sel) "All")
            then stmt_index (fun r => eq_mask (type r) (selected_type sel)) e1
            else Some e1) as [e2|] eqn:E2; simpl; [|discriminate].
  destruct (if negb (String.eqb (selected_country sel) "All")
            then stmt_index (fun r => eq_mask (country r) (selected_country sel)) e2
            else Some e2) as [e3|] eqn:E3; simpl; [|discriminate].
  intros E4.
  apply stmt_copy_fresh in E1. apply guarded_index_fresh in E2.
  apply guarded_index_fresh in E3. apply stmt_index_fresh in E4.
  lia.
Qed.

(** One run over a store holding the sample frame, both selectors "All". *)
Lemma filter_block_result_fresh_witness :
  exists e',
    filter_block (mkSelection "All" "All" (2014, 2017)%Z)
                 {| heap := [four_years]; var_df := 0; var_filtered_df := 0 |}
    = Some e'
    /\ var_filtered_df e' <> var_df e'.
Proof.
  destruct (filter_block (mkSelection "All" "All" (2014, 2017)%Z)
              {| heap := [four_years]; var_df := 0; var_filtered_df := 0 |})
    as [e'|] eqn:E; [|discriminate].
  exists e'. split; [reflexivity|].
  destruct (@filter_block_result_fresh _ _ _ E) as [_ [H _]]. exact H.
Defined.
